(** * NatureUp Health: assistant endpoints and client SDK

    A shallow embedding of
    - [supabase/functions/health-coach-assistant/index.ts],
    - [supabase/functions/excursion-creator-assistant/index.ts],
    - [lib/assistants-api.ts] (the [AssistantsAPI] class),
    - the migration that creates [conversations] and [messages], with its
      policies and its trigger,
    followed by the properties of the conversation/run orchestration.

    The two endpoint handlers are the same program up to four places (the
    assistant-type tag written to the store, the name of the environment
    variable holding the assistant id, the message of the matching
    configuration error, and the content posted to the remote thread, which
    only the excursion endpoint builds from [userContext]); these four
    places are collected in [Config].

    Everything the handler cannot decide by itself (the authentication
    service, the database, the remote assistant service, the process
    environment) is an [Env]: a record of answers.  The handler threads a
    [State] (store contents, trace of the requests it issued, number of
    status polls, clock) and may throw.

    Line numbers are those of [health-coach-assistant/index.ts] unless the
    other file is named. *)

From Stdlib Require Import String Ascii List Bool Arith ZArith Lia.
From Stdlib Require Import Sorting.Sorted Sorting.Permutation.
From Equations Require Import Equations.
Import ListNotations.

Open Scope string_scope.

(** ** Data model *)

(** [AssistantType] of [lib/assistants-api.ts]. *)
Inductive AssistantType := health_coach | excursion_creator.

(** The [role] column of [messages]. *)
Inductive Role := user | assistant.

Definition AssistantType_eqb (a b : AssistantType) : bool :=
  match a, b with
  | health_coach, health_coach => true
  | excursion_creator, excursion_creator => true
  | _, _ => false
  end.

(** A row of [conversations]; timestamps are points of the database clock. *)
Record Conversation := {
  id : string;
  user_id : string;
  assistant_type : AssistantType;
  thread_id : string;
  created_at : Z;
  updated_at : Z
}.

(** A row of [messages] ([ChatMessage] in the SDK). *)
Record ChatMessage := {
  msg_id : string;
  conversation_id : string;
  role : Role;
  content : string;
  msg_created_at : Z
}.

Record Store := {
  conversations : list Conversation;
  messages : list ChatMessage
}.

(** [userContext] of the request body.  [location.lat] and [location.lng]
    are never read by the handlers and are left out. *)
Record Location := { address : option string }.

Record UserContext := {
  healthGoals : option (list string);
  mobilityLevel : option string;
  preferredActivities : option (list string);
  location : option Location
}.

(** The JSON body ([ChatRequest] / [ExcursionRequest]). *)
Record ChatRequest := {
  message : option string;
  conversationId : option string;
  userContext : option UserContext
}.

(** What [await req.json()] and the destructuring of its result come to:
    an [Error] is thrown (the body is not JSON, or not an object), or the
    fields of the body are read. *)
Inductive Json :=
| Malformed (msg : string)
| Parsed (b : ChatRequest).

(** The inbound HTTP request: method, [Authorization] header, body. *)
Record Request := {
  method : string;
  authorization : option string;
  json : Json
}.

(** [ChatResponse] / [ExcursionResponse]. *)
Record ChatResponse := {
  response : string;
  resp_conversationId : string;
  resp_threadId : string
}.

Inductive Body :=
| BodyNull
| BodyChat (r : ChatResponse)
| BodyError (error : string).

Record Response := {
  status : nat;
  headers : list (string * string);
  body : Body
}.

(** A message of the remote thread as returned by the list-messages call. *)
Record ContentPart := { part_type : string; text_value : string }.
Record ThreadMessage := { tm_role : string; tm_content : list ContentPart }.

(** The run object of the create-run response. *)
Record Run := { run_id : string; run_status : string }.

(** ** JavaScript truthiness of optional strings and arrays *)

Definition truthy (s : string) : bool := negb (s =? "").

Definition truthy_opt (o : option string) : bool :=
  match o with
  | Some s => truthy s
  | None => false
  end.

(** ** What a handler may throw

    [JsError] is an instance of [Error] (everything raised with
    [throw new Error(..)], and the parse error of [req.json()]);
    [PostgrestError] is the error object handed back by a store call and
    re-thrown as it is. *)
Inductive Thrown :=
| JsError (msg : string)
| PostgrestError (msg : string).

Inductive Outcome (A : Type) :=
| Return (a : A)
| Throw (e : Thrown).
Arguments Return {A} a.
Arguments Throw {A} e.

(** What awaiting a call of the remote service comes to: the call throws
    (the request, or the reading of the JSON body of its response, fails
    with an [Error] of the given message), the response is not [ok], or it
    is [ok] and carries a payload. *)
Inductive Fetched (A : Type) :=
| Rejected (msg : string)
| NotOk
| Ok (a : A).
Arguments Rejected {A} msg.
Arguments NotOk {A}.
Arguments Ok {A} a.

(** ** Requests issued by the handler, in order *)
Inductive Event :=
| EvGetUser (authHeader : string)
| EvSelectConversation (cid uid : string)
| EvInsertConversation (uid : string) (ty : AssistantType) (thread : string)
| EvInsertMessage (cid : string) (r : Role) (text : string)
| EvCreateThread
| EvAddMessage (thread text : string)
| EvCreateRun (thread assistantId : string)
| EvSleep (ms : Z)
| EvGetRun (thread run : string)
| EvListMessages (thread : string).

(** ** The outside world *)
Record Env := {
  (** [Deno.env.get] *)
  env_get : string -> option string;
  (** [createClient(url, key, ..)]: the message of the [Error] it throws
      when it rejects the configured url or key *)
  createClient_error : option string;
  (** [supabase.auth.getUser()] under the given [Authorization] header:
      the user id, or [None] for an error or a missing user *)
  auth_getUser : string -> option string;
  (** store calls that come back with an [error] *)
  select_conversation_error : option string;
  insert_conversation_error : option string;
  insert_message_error : Role -> option string;
  (** the id the database gives to the next inserted row *)
  gen_id : Store -> string;
  (** POST /v1/threads: the id of the new thread *)
  post_threads : Fetched string;
  (** POST /v1/threads/:t/messages, by thread and content *)
  post_messages : string -> string -> Fetched unit;
  (** POST /v1/threads/:t/runs, by thread and assistant id: the run *)
  post_runs : string -> string -> Fetched Run;
  (** GET /v1/threads/:t/runs/:r, by thread, run and the number of earlier
      such calls: the status *)
  get_run : string -> string -> nat -> Fetched string;
  (** GET /v1/threads/:t/messages, by thread: [data] *)
  get_messages : string -> Fetched (list ThreadMessage)
}.

Record State := {
  store : Store;
  trace : list Event;
  polls : nat;
  now : Z
}.

Definition set_store (s : Store) (st : State) : State :=
  {| store := s; trace := trace st; polls := polls st; now := now st |}.

Definition log (ev : Event) (st : State) : State :=
  {| store := store st; trace := trace st ++ [ev];
     polls := polls st; now := now st |}.

(** ** The state-and-exception monad of a handler body *)
Definition M (A : Type) : Type := State -> Outcome A * State.

Definition ret {A} (a : A) : M A := fun st => (Return a, st).
Definition throw {A} (e : Thrown) : M A := fun st => (Throw e, st).

Definition bind {A B} (m : M A) (k : A -> M B) : M B :=
  fun st =>
    match m st with
    | (Return a, st') => k a st'
    | (Throw e, st') => (Throw e, st')
    end.

Declare Scope handler_scope.
Delimit Scope handler_scope with handler.
Notation "x <- m ;; k" := (bind m (fun x => k))
  (at level 61, m at next level, right associativity) : handler_scope.
Notation "' p <- m ;; k" := (bind m (fun x => let 'p := x in k))
  (at level 61, p pattern, m at next level, right associativity) : handler_scope.
Notation "m ;; k" := (bind m (fun _ => k))
  (at level 61, right associativity) : handler_scope.
Open Scope handler_scope.

(** Case analysis on a test that keeps the test's equation, for loops
    whose termination depends on their condition. *)
Definition inspect {A : Type} (x : A) : { y : A | x = y } :=
  exist _ x eq_refl.

Definition emit (ev : Event) : M unit := fun st => (Return tt, log ev st).

(** ** The two endpoints differ in these four places only *)
Record Config := {
  (** [assistant_type] written by the conversation insert *)
  cfg_assistant_type : AssistantType;
  (** environment variable holding the remote assistant id *)
  cfg_assistant_id_var : string;
  (** message of the error thrown when that variable is unset *)
  cfg_not_configured : string;
  (** [content] of the body posted to the thread, from the request's
      [message] and [userContext] *)
  cfg_thread_content : string -> option UserContext -> string
}.

Definition nl : string := String "010"%char EmptyString.

Definition nonempty (o : option (list string)) : bool :=
  match o with
  | Some (_ :: _) => true
  | _ => false
  end.

Definition or_nil (o : option (list string)) : list string :=
  match o with
  | Some l => l
  | None => []
  end.

Definition or_empty (o : option string) : string :=
  match o with
  | Some s => s
  | None => ""
  end.

(** [userContext.location?.address] *)
Definition location_address (c : UserContext) : option string :=
  match location c with
  | Some l => address l
  | None => None
  end.

(** [Array.prototype.filter(Boolean)] on an array of strings and nulls. *)
Fixpoint filter_Boolean (l : list (option string)) : list string :=
  match l with
  | [] => []
  | Some s :: l' => if truthy s then s :: filter_Boolean l' else filter_Boolean l'
  | None :: l' => filter_Boolean l'
  end.

(** excursion-creator-assistant/index.ts, lines 158-163. *)
Definition contextInfo (c : UserContext) : list string :=
  filter_Boolean
    [ if nonempty (healthGoals c)
      then Some ("Health Goals: " ++ String.concat ", " (or_nil (healthGoals c)))
      else None;
      if truthy_opt (mobilityLevel c)
      then Some ("Mobility Level: " ++ or_empty (mobilityLevel c))
      else None;
      if nonempty (preferredActivities c)
      then Some ("Preferred Activities: "
                 ++ String.concat ", " (or_nil (preferredActivities c)))
      else None;
      if truthy_opt (location_address c)
      then Some ("Location: " ++ or_empty (location_address c))
      else None ].

(** excursion-creator-assistant/index.ts, lines 156-168. *)
Definition messageContent (msg : string) (ctx : option UserContext) : string :=
  match ctx with
  | Some c =>
      match contextInfo c with
      | [] => msg
      | _ :: _ =>
          msg ++ nl ++ nl ++ "User Context:" ++ nl
              ++ String.concat nl (contextInfo c)
      end
  | None => msg
  end.

(** health-coach-assistant/index.ts: [userContext] is not read from the
    body, and line 168 posts [content: message]. *)
Definition health_coach_config : Config :=
  {| cfg_assistant_type := health_coach;
     cfg_assistant_id_var := "HEALTH_COACH_ASSISTANT_ID";
     cfg_not_configured := "Health Coach Assistant ID not configured";
     cfg_thread_content := fun msg _ => msg |}.

Definition excursion_creator_config : Config :=
  {| cfg_assistant_type := excursion_creator;
     cfg_assistant_id_var := "EXCURSION_CREATOR_ASSISTANT_ID";
     cfg_not_configured := "Excursion Creator Assistant ID not configured";
     cfg_thread_content := messageContent |}.

Definition corsHeaders : list (string * string) :=
  [ ("Access-Control-Allow-Origin", "*");
    ("Access-Control-Allow-Methods", "GET, POST, PUT, DELETE, OPTIONS");
    ("Access-Control-Allow-Headers",
     "Content-Type, Authorization, X-Client-Info, Apikey") ].

Definition maxAttempts : nat := 30.

(** ** Store and remote calls *)

(** The trigger [update_conversation_on_message] of the schema: after the
    insert of a message, [updated_at] of the conversation with the id the
    message refers to is set to the time of the insert. *)
Definition touch (cid : string) (t : Z) (c : Conversation) : Conversation :=
  if id c =? cid
  then {| id := id c; user_id := user_id c;
          assistant_type := assistant_type c; thread_id := thread_id c;
          created_at := created_at c; updated_at := t |}
  else c.

Definition maybeSingle_error : string :=
  "JSON object requested, multiple (or no) rows returned".

Section Handler.

Variable E : Env.
Variable cfg : Config.

(** [const response = await fetch(..); if (!response.ok) throw new
    Error(failure); .. await response.json()] *)
Definition check {A} (r : Fetched A) (failure : string) : M A :=
  match r with
  | Ok a => ret a
  | NotOk => throw (JsError failure)
  | Rejected m => throw (JsError m)
  end.

(** [await new Promise(resolve => setTimeout(resolve, ms))] *)
Definition sleep (ms : Z) : M unit :=
  fun st =>
    (Return tt,
     {| store := store st; trace := trace st ++ [EvSleep ms];
        polls := polls st; now := (now st + ms)%Z |}).

(** [.from("conversations").select("id, thread_id").eq("id", ..)
     .eq("user_id", ..).maybeSingle()], followed by
    [if (convError) throw convError]. *)
Definition select_conversation (cid uid : string) : M (option Conversation) :=
  emit (EvSelectConversation cid uid) ;;
  fun st =>
    match select_conversation_error E with
    | Some m => (Throw (PostgrestError m), st)
    | None =>
        match filter (fun c => (id c =? cid) && (user_id c =? uid))
                     (conversations (store st)) with
        | [] => (Return None, st)
        | [c] => (Return (Some c), st)
        | _ :: _ :: _ => (Throw (PostgrestError maybeSingle_error), st)
        end
    end.

(** [.from("conversations").insert({..}).select("id").single()], followed
    by [if (createError) throw createError]; yields [newConversation.id]. *)
Definition insert_conversation (uid thread : string) : M string :=
  emit (EvInsertConversation uid (cfg_assistant_type cfg) thread) ;;
  fun st =>
    match insert_conversation_error E with
    | Some m => (Throw (PostgrestError m), st)
    | None =>
        let row := {| id := gen_id E (store st); user_id := uid;
                      assistant_type := cfg_assistant_type cfg;
                      thread_id := thread;
                      created_at := now st; updated_at := now st |} in
        (Return (id row),
         set_store {| conversations := conversations (store st) ++ [row];
                      messages := messages (store st) |} st)
    end.

(** [.from("messages").insert({conversation_id, role, content})], followed
    by [if (msgError) throw msgError]. *)
Definition insert_message (cid : string) (r : Role) (text : string) : M unit :=
  emit (EvInsertMessage cid r text) ;;
  fun st =>
    match insert_message_error E r with
    | Some m => (Throw (PostgrestError m), st)
    | None =>
        let row := {| msg_id := gen_id E (store st); conversation_id := cid;
                      role := r; content := text;
                      msg_created_at := now st |} in
        (Return tt,
         set_store {| conversations :=
                        map (touch cid (now st)) (conversations (store st));
                      messages := messages (store st) ++ [row] |} st)
    end.

(** POST https://api.openai.com/v1/threads *)
Definition create_thread : M string :=
  emit EvCreateThread ;;
  check (post_threads E) "Failed to create OpenAI thread".

(** POST https://api.openai.com/v1/threads/${threadId}/messages *)
Definition add_message (threadId text : string) : M unit :=
  emit (EvAddMessage threadId text) ;;
  check (post_messages E threadId text) "Failed to add message to thread".

(** POST https://api.openai.com/v1/threads/${threadId}/runs *)
Definition create_run (threadId assistantId : string) : M Run :=
  emit (EvCreateRun threadId assistantId) ;;
  check (post_runs E threadId assistantId) "Failed to run assistant".

(** GET https://api.openai.com/v1/threads/${threadId}/runs/${run.id};
    yields [statusData.status]. *)
Definition get_run_status (threadId runId : string) : M string :=
  fun st =>
    let st' := {| store := store st;
                  trace := trace st ++ [EvGetRun threadId runId];
                  polls := S (polls st); now := now st |} in
    check (get_run E threadId runId (polls st)) "Failed to check run status"
          st'.

(** GET https://api.openai.com/v1/threads/${threadId}/messages;
    yields [messagesData.data]. *)
Definition list_messages (threadId : string) : M (list ThreadMessage) :=
  emit (EvListMessages threadId) ;;
  check (get_messages E threadId) "Failed to retrieve messages".

(** [runStatus === "failed" || runStatus === "cancelled" ||
     runStatus === "expired"] *)
Definition run_ended (runStatus : string) : bool :=
  (runStatus =? "failed") || (runStatus =? "cancelled")
  || (runStatus =? "expired").

(** The loop condition
    [runStatus !== "completed" && attempts < maxAttempts]. *)
Definition keep_polling (runStatus : string) (attempts : nat) : bool :=
  negb (runStatus =? "completed") && Nat.ltb attempts maxAttempts.

(** The [while] loop of lines 211-235; it yields the final [runStatus].
    Each round sleeps one second, fetches the status, counts the attempt
    and throws on a status that ended the run. *)
Equations? poll_loop (threadId runId runStatus : string) (attempts : nat)
  (st : State) : Outcome string * State by wf (maxAttempts - attempts) lt :=
poll_loop threadId runId runStatus attempts st
  with inspect (keep_polling runStatus attempts) := {
  | exist _ false _ => (Return runStatus, st)
  | exist _ true Hc
      with (_ <- sleep 1000 ;; get_run_status threadId runId) st := {
      | (Throw e, st') => (Throw e, st')
      | (Return s, st') =>
          if run_ended s
          then (Throw (JsError ("Assistant run " ++ s)), st')
          else poll_loop threadId runId s (S attempts) st' } }.
Proof.
  unfold keep_polling in Hc.
  apply andb_true_iff in Hc. destruct Hc as [_ Hlt].
  apply Nat.ltb_lt in Hlt. clear poll_loop.
  change (maxAttempts - S attempts < maxAttempts - attempts). lia.
Qed.

(** Lines 207-239: the loop from [run.status] and zero attempts, then the
    timeout check. *)
Definition poll_for_completion (threadId : string) (run : Run) : M unit :=
  runStatus <- poll_loop threadId (run_id run) (run_status run) 0 ;;
  if negb (runStatus =? "completed")
  then throw (JsError "Assistant run timed out")
  else ret tt.

(** ** The handler, in source order *)

(** Lines 31-49: the [Authorization] header, the store client, the caller.
    Yields [user.id]. *)
Definition authenticate (req : Request) : M string :=
  if negb (truthy_opt (authorization req))
  then throw (JsError "No authorization header")
  else
    let authHeader := or_empty (authorization req) in
    match createClient_error E with
    | Some m => throw (JsError m)
    | None =>
        emit (EvGetUser authHeader) ;;
        match auth_getUser E authHeader with
        | Some uid => ret uid
        | None => throw (JsError "Unauthorized")
        end
    end.

(** Lines 52-55: the body and the check of [message]. *)
Definition parse_body (req : Request) : M ChatRequest :=
  match json req with
  | Malformed m => throw (JsError m)
  | Parsed b =>
      if negb (truthy_opt (message b))
      then throw (JsError "Message is required")
      else ret b
  end.

(** Lines 58-61. *)
Definition get_api_key : M string :=
  if negb (truthy_opt (env_get E "OPENAI_API_KEY"))
  then throw (JsError "OpenAI API key not configured")
  else ret (or_empty (env_get E "OPENAI_API_KEY")).

(** Lines 82-110, and again lines 114-142: a new thread and its
    conversation row.  Yields [(threadId, dbConversationId)]. *)
Definition create_conversation (uid : string) : M (string * string) :=
  threadId <- create_thread ;;
  dbConversationId <- insert_conversation uid threadId ;;
  ret (threadId, dbConversationId).

(** Lines 63-143.  Yields [(threadId, dbConversationId)]. *)
Definition resolve_conversation (uid : string) (cid : option string)
  : M (string * string) :=
  if truthy_opt cid
  then
    conversation <- select_conversation (or_empty cid) uid ;;
    match conversation with
    | Some c => ret (thread_id c, id c)
    | None => create_conversation uid
    end
  else create_conversation uid.

(** What the rest of a turn reads once the conversation is resolved. *)
Record Turn := {
  turn_user : string;
  turn_message : string;
  turn_userContext : option UserContext;
  threadId : string;
  dbConversationId : string
}.

(** Lines 31-154: up to and including the insert of the user's message. *)
Definition open_turn (req : Request) : M Turn :=
  uid <- authenticate req ;;
  b <- parse_body req ;;
  _ <- get_api_key ;;
  tc <- resolve_conversation uid (conversationId b) ;;
  insert_message (snd tc) user (or_empty (message b)) ;;
  ret {| turn_user := uid; turn_message := or_empty (message b);
         turn_userContext := userContext b;
         threadId := fst tc; dbConversationId := snd tc |}.

(** Lines 156-175: the content for the thread and the append call. *)
Definition append_turn (t : Turn) : M unit :=
  add_message (threadId t)
    (cfg_thread_content cfg (turn_message t) (turn_userContext t)).

(** Lines 177-204: the assistant id and the run. *)
Definition start_run (t : Turn) : M Run :=
  if negb (truthy_opt (env_get E (cfg_assistant_id_var cfg)))
  then throw (JsError (cfg_not_configured cfg))
  else create_run (threadId t) (or_empty (env_get E (cfg_assistant_id_var cfg))).

Definition is_assistant (m : ThreadMessage) : bool := tm_role m =? "assistant".
Definition is_text (c : ContentPart) : bool := part_type c =? "text".

(** Lines 241-274.  Yields [assistantResponse]. *)
Definition get_assistant_response (t : Turn) : M string :=
  data <- list_messages (threadId t) ;;
  match find is_assistant data with
  | None => throw (JsError "No assistant response found")
  | Some assistantMessage =>
      match find is_text (tm_content assistantMessage) with
      | None => throw (JsError "No text content in assistant response")
      | Some textContent => ret (text_value textContent)
      end
  end.

(** Lines 241-291: the reply is read, stored and returned. *)
Definition reply_turn (t : Turn) : M ChatResponse :=
  assistantResponse <- get_assistant_response t ;;
  insert_message (dbConversationId t) assistant assistantResponse ;;
  ret {| response := assistantResponse;
         resp_conversationId := dbConversationId t;
         resp_threadId := threadId t |}.

(** The body of the [try] block, lines 29-298. *)
Definition handler_try (req : Request) : M ChatResponse :=
  t <- open_turn req ;;
  append_turn t ;;
  run <- start_run t ;;
  poll_for_completion (threadId t) run ;;
  reply_turn t.

Definition json_headers : list (string * string) :=
  corsHeaders ++ [("Content-Type", "application/json")].

(** [error instanceof Error ? error.message : "An unknown error occurred"] *)
Definition error_message (e : Thrown) : string :=
  match e with
  | JsError m => m
  | PostgrestError _ => "An unknown error occurred"
  end.

(** The function given to [Deno.serve]: the preflight answer, the [try]
    block and its [catch]. *)
Definition serve (req : Request) (st : State) : Response * State :=
  if method req =? "OPTIONS"
  then ({| status := 200; headers := corsHeaders; body := BodyNull |}, st)
  else
    match handler_try req st with
    | (Return responseData, st') =>
        ({| status := 200; headers := json_headers;
            body := BodyChat responseData |}, st')
    | (Throw e, st') =>
        ({| status := 500; headers := json_headers;
            body := BodyError (error_message e) |}, st')
    end.

End Handler.

Definition health_coach_assistant (E : Env) := serve E health_coach_config.
Definition excursion_creator_assistant (E : Env) :=
  serve E excursion_creator_config.

(** ** The client SDK: [AssistantsAPI] of [lib/assistants-api.ts] *)

(** A query as the builder of the store client accumulates it: the [.eq]
    filters and the [.order] clause (sort key and direction). *)
Record Query (R : Type) := {
  filters : list (R -> bool);
  ordering : option ((R -> Z) * bool)
}.
Arguments filters {R} q.
Arguments ordering {R} q.

Definition select_all {R} : Query R := {| filters := []; ordering := None |}.

Definition order {R} (key : R -> Z) (ascending : bool) (q : Query R) : Query R :=
  {| filters := filters q; ordering := Some (key, ascending) |}.

Definition eq_filter {R} (p : R -> bool) (q : Query R) : Query R :=
  {| filters := filters q ++ [p]; ordering := ordering q |}.

Fixpoint insert_by {R} (le : R -> R -> bool) (x : R) (l : list R) : list R :=
  match l with
  | [] => [x]
  | y :: l' => if le x y then x :: l else y :: insert_by le x l'
  end.

Fixpoint sort_by {R} (le : R -> R -> bool) (l : list R) : list R :=
  match l with
  | [] => []
  | x :: l' => insert_by le x (sort_by le l')
  end.

Definition key_le {R} (key : R -> Z) (ascending : bool) (a b : R) : bool :=
  if ascending then (key a <=? key b)%Z else (key b <=? key a)%Z.

(** The rows the store answers a query with: those that pass every filter,
    in the requested order. *)
Definition answer {R} (rows : list R) (q : Query R) : list R :=
  let kept := filter (fun r => forallb (fun p => p r) (filters q)) rows in
  match ordering q with
  | Some (key, ascending) => sort_by (key_le key ascending) kept
  | None => kept
  end.

(** The row-level policies of the schema, "Users can view own
    conversations" and "Users can view own messages": a conversation is
    visible to its owner; a message is visible to the owner of its
    conversation. *)
Definition visible_conversation (caller : string) (c : Conversation) : bool :=
  user_id c =? caller.

Definition visible_message (s : Store) (caller : string) (m : ChatMessage)
  : bool :=
  existsb (fun c => (id c =? conversation_id m) && (user_id c =? caller))
          (conversations s).

Module AssistantsAPI.

Section Client.

(** The signed-in user of the store client. *)
Variable caller : string.
(** [error.message] of a query the store rejects. *)
Variable query_error : option string.

(** [const { data, error } = await query] *)
Definition await {R} (rows : list R) (q : Query R)
  : option (list R) * option string :=
  match query_error with
  | Some m => (None, Some m)
  | None => (Some (answer rows q), None)
  end.

Definition or_empty_array {R} (data : option (list R)) : list R :=
  match data with
  | Some d => d
  | None => []
  end.

(** Lines 90-107. *)
Definition getConversations (s : Store) (assistantType : option AssistantType)
  : Outcome (list Conversation) :=
  let query := order updated_at false select_all in
  let query :=
    match assistantType with
    | Some ty => eq_filter (fun c => AssistantType_eqb (assistant_type c) ty) query
    | None => query
    end in
  let '(data, error) :=
    await (filter (visible_conversation caller) (conversations s)) query in
  match error with
  | Some m => Throw (JsError ("Failed to fetch conversations: " ++ m))
  | None => Return (or_empty_array data)
  end.

(** Lines 109-121. *)
Definition getMessages (s : Store) (conversationId : string)
  : Outcome (list ChatMessage) :=
  let query :=
    order msg_created_at true
      (eq_filter (fun m => conversation_id m =? conversationId) select_all) in
  let '(data, error) :=
    await (filter (visible_message s caller) (messages s)) query in
  match error with
  | Some m => Throw (JsError ("Failed to fetch messages: " ++ m))
  | None => Return (or_empty_array data)
  end.

End Client.

(** [response.ok]: the status is in the range 200-299. *)
Definition ok (r : Response) : bool :=
  Nat.leb 200 (status r) && Nat.leb (status r) 299.

Section Sender.

(** [(await supabase.auth.getSession()).data.session?.access_token] *)
Variable session : option string.
(** [process.env.EXPO_PUBLIC_SUPABASE_URL] *)
Variable supabaseUrl : option string.
(** [fetch(url, { method: 'POST', headers, body })]: it throws an [Error],
    or yields the response; the backend state goes from one to the next. *)
Variable fetch : string -> Request -> State -> Outcome Response * State.
(** The message of the [SyntaxError] of [response.json()] on an empty
    body. *)
Variable empty_body_error : string.

(** Lines 46-48. *)
Definition functionName (assistantType : AssistantType) : string :=
  match assistantType with
  | health_coach => "health-coach-assistant"
  | excursion_creator => "excursion-creator-assistant"
  end.

(** Lines 40-51. *)
Definition getEdgeFunctionUrl (assistantType : AssistantType)
  : Outcome string :=
  if negb (truthy_opt supabaseUrl)
  then Throw (JsError "Supabase URL not configured")
  else Return (or_empty supabaseUrl ++ "/functions/v1/"
                 ++ functionName assistantType).

(** [error.error || 'Failed to send message'] for the parsed body of a
    response that is not [ok]. *)
Definition error_of (b : Body) : string :=
  match b with
  | BodyError m => if truthy m then m else "Failed to send message"
  | _ => "Failed to send message"
  end.

(** Lines 53-88.  The value returned is the parsed body of the response,
    whatever its shape. *)
Definition sendMessage (assistantType : AssistantType) (msg : string)
  (conversationId : option string) (userContext : option UserContext)
  (st : State) : Outcome Body * State :=
  match session with
  | None => (Throw (JsError "Not authenticated"), st)
  | Some access_token =>
      match getEdgeFunctionUrl assistantType with
      | Throw e => (Throw e, st)
      | Return url =>
          let req :=
            {| method := "POST";
               authorization := Some ("Bearer " ++ access_token);
               json := Parsed {| message := Some msg;
                                 conversationId := conversationId;
                                 userContext := userContext |} |} in
          match fetch url req st with
          | (Throw e, st') => (Throw e, st')
          | (Return response, st') =>
              match body response with
              | BodyNull => (Throw (JsError empty_body_error), st')
              | b =>
                  if negb (ok response)
                  then (Throw (JsError (error_of b)), st')
                  else (Return b, st')
              end
          end
      end
  end.

End Sender.

Section Deleter.

(** The signed-in user of the store client. *)
Variable caller : string.
(** [error.message] of a delete the store rejects. *)
Variable delete_error : option string.

(** The rows [.from('conversations').delete().eq('id', conversationId)]
    removes for [caller]: those with that id that the policy "Users can
    delete own conversations" lets the caller delete. *)
Definition deleted (conversationId : string) (c : Conversation) : bool :=
  (id c =? conversationId) && (user_id c =? caller).

(** The store after the delete: the rows are gone, and with them, by
    [ON DELETE CASCADE] on [messages.conversation_id], the messages that
    reference one of them. *)
Definition delete_from (s : Store) (conversationId : string) : Store :=
  {| conversations :=
       filter (fun c => negb (deleted conversationId c)) (conversations s);
     messages :=
       filter (fun m =>
                 negb (existsb (fun c => deleted conversationId c
                                         && (id c =? conversation_id m))
                               (conversations s)))
              (messages s) |}.

(** Lines 123-132. *)
Definition deleteConversation (s : Store) (conversationId : string)
  : Outcome unit * Store :=
  match delete_error with
  | Some m => (Throw (JsError ("Failed to delete conversation: " ++ m)), s)
  | None => (Return tt, delete_from s conversationId)
  end.

End Deleter.

End AssistantsAPI.

(** ** Vocabulary of the statements *)

(** A status on which the loop goes on: neither ["completed"] nor one of
    the three that end the run. *)
Definition pending (runStatus : string) : bool :=
  negb (runStatus =? "completed") && negb (run_ended runStatus).

(** The requests of [n] rounds of the loop. *)
Fixpoint poll_events (thread run : string) (n : nat) : list Event :=
  match n with
  | 0 => []
  | S n' => EvSleep 1000 :: EvGetRun thread run :: poll_events thread run n'
  end.

(** The state [n] rounds of the loop later. *)
Definition polled (thread run : string) (n : nat) (st : State) : State :=
  {| store := store st;
     trace := trace st ++ poll_events thread run n;
     polls := polls st + n;
     now := (now st + 1000 * Z.of_nat n)%Z |}.

(** The turn up to the creation of the run (lines 29-204). *)
Definition submit_turn (E : Env) (cfg : Config) (req : Request)
  : M (Turn * Run) :=
  t <- open_turn E cfg req ;;
  append_turn E cfg t ;;
  run <- start_run E cfg t ;;
  ret (t, run).

(** The answer of the [catch] block for an error with message [m]. *)
Definition error_response (m : string) : Response :=
  {| status := 500; headers := json_headers; body := BodyError m |}.

(** The answer of a turn that went through. *)
Definition ok_response (r : ChatResponse) : Response :=
  {| status := 200; headers := json_headers; body := BodyChat r |}.

(** What [serve] makes of the outcome of the [try] block. *)
Definition respond (r : Outcome ChatResponse * State) : Response * State :=
  match r with
  | (Return responseData, st') => (ok_response responseData, st')
  | (Throw e, st') => (error_response (error_message e), st')
  end.

(** The rest of a turn from a point of the loop: the remaining rounds, the
    timeout check, the reply (lines 211-291). *)
Definition finish_turn (E : Env) (t : Turn) (run : Run)
  (runStatus : string) (attempts : nat) : M ChatResponse :=
  _ <- (rs <- poll_loop E (threadId t) (run_id run) runStatus attempts ;;
        if negb (rs =? "completed")
        then throw (JsError "Assistant run timed out")
        else ret tt) ;;
  reply_turn E t.

(** A turn once its conversation is resolved and the user's message is
    stored (lines 156-291). *)
Definition close_turn (E : Env) (cfg : Config) (t : Turn) : M ChatResponse :=
  append_turn E cfg t ;;
  run <- start_run E cfg t ;;
  poll_for_completion E (threadId t) run ;;
  reply_turn E t.

(** What identifies a conversation row and never changes: id, owner,
    assistant type, thread. *)
Definition conversation_key (c : Conversation)
  : string * string * AssistantType * string :=
  (id c, user_id c, assistant_type c, thread_id c).

(** The requests a resolved turn may issue: remote calls on its own thread,
    the thread content computed from its message, and the insert of the
    assistant's message into its own conversation. *)
Definition about (cfg : Config) (t : Turn) (ev : Event) : Prop :=
  match ev with
  | EvAddMessage thread text =>
      thread = threadId t
      /\ text = cfg_thread_content cfg (turn_message t) (turn_userContext t)
  | EvCreateRun thread _ => thread = threadId t
  | EvGetRun thread _ => thread = threadId t
  | EvListMessages thread => thread = threadId t
  | EvInsertMessage cid r _ => cid = dbConversationId t /\ r = assistant
  | EvSleep _ => True
  | _ => False
  end.

(** [st'] comes after [st] in a resolved turn: more requests about the
    turn, more assistant messages of its conversation, the same
    conversations. *)
Definition turn_step (cfg : Config) (t : Turn) (st st' : State) : Prop :=
  exists evs new,
    trace st' = (trace st ++ evs)%list
    /\ Forall (about cfg t) evs
    /\ messages (store st') = (messages (store st) ++ new)%list
    /\ Forall (fun m => role m = assistant
                        /\ conversation_id m = dbConversationId t) new
    /\ map conversation_key (conversations (store st'))
       = map conversation_key (conversations (store st)).

(** [text] is the [message] of the request body, as the client sent it. *)
Definition original_message (req : Request) (text : string) : Prop :=
  exists b, json req = Parsed b /\ message b = Some text.

(** The requests of a turn before its conversation is resolved and the
    user's message stored: authentication, lookup, creation of thread and
    conversation, and the insert of the original message as ["user"]. *)
Definition opening (req : Request) (ev : Event) : Prop :=
  match ev with
  | EvGetUser _ => True
  | EvSelectConversation _ _ => True
  | EvCreateThread => True
  | EvInsertConversation _ _ _ => True
  | EvInsertMessage _ r text => r = user /\ original_message req text
  | _ => False
  end.

(** The row of a message inserted in state [st]. *)
Definition message_row (E : Env) (st : State) (cid : string) (r : Role)
  (text : string) : ChatMessage :=
  {| msg_id := gen_id E (store st); conversation_id := cid; role := r;
     content := text; msg_created_at := now st |}.

(** The state after a successful insert of a message in state [st]. *)
Definition message_inserted (E : Env) (cid : string) (r : Role)
  (text : string) (st : State) : State :=
  set_store
    {| conversations := map (touch cid (now st)) (conversations (store st));
       messages := messages (store st) ++ [message_row E st cid r text] |}
    (log (EvInsertMessage cid r text) st).

(** The request with [userContext] removed from its body. *)
Definition without_userContext (req : Request) : Request :=
  {| method := method req;
     authorization := authorization req;
     json := match json req with
             | Parsed b => Parsed {| message := message b;
                                     conversationId := conversationId b;
                                     userContext := None |}
             | Malformed m => Malformed m
             end |}.

(** The row of a conversation inserted in state [st]. *)
Definition conversation_row (E : Env) (cfg : Config) (st : State)
  (uid thread : string) : Conversation :=
  {| id := gen_id E (store st); user_id := uid;
     assistant_type := cfg_assistant_type cfg; thread_id := thread;
     created_at := now st; updated_at := now st |}.

(** The state after a successful insert of a conversation in state [st]. *)
Definition conversation_inserted (E : Env) (cfg : Config)
  (uid thread : string) (st : State) : State :=
  set_store
    {| conversations :=
         conversations (store st) ++ [conversation_row E cfg st uid thread];
       messages := messages (store st) |}
    (log (EvInsertConversation uid (cfg_assistant_type cfg) thread) st).

(** ** A small world for the examples

    One signed-in user, every store call succeeds, the remote service
    creates thread ["thread_1"] and run ["run_1"]; the create-run response
    reports [first] and the [n]-th status request reports [statuses n]. *)
Definition demo_env (first : string) (statuses : nat -> Fetched string)
  (append : Fetched unit) : Env :=
  {| env_get := fun k =>
       if k =? "OPENAI_API_KEY" then Some "sk-demo"
       else if k =? "HEALTH_COACH_ASSISTANT_ID" then Some "asst_coach"
       else if k =? "EXCURSION_CREATOR_ASSISTANT_ID" then Some "asst_trip"
       else None;
     createClient_error := None;
     auth_getUser := fun h => if h =? "Bearer alice" then Some "alice" else None;
     select_conversation_error := None;
     insert_conversation_error := None;
     insert_message_error := fun _ => None;
     gen_id := fun s =>
       String.concat "" (repeat "i" (S (length (conversations s)
                                        + length (messages s))));
     post_threads := Ok "thread_1";
     post_messages := fun _ _ => append;
     post_runs := fun _ _ => Ok {| run_id := "run_1"; run_status := first |};
     get_run := fun _ _ n => statuses n;
     get_messages := fun _ =>
       Ok [ {| tm_role := "user";
                 tm_content := [ {| part_type := "text";
                                    text_value := "Plan a beach day" |} ] |};
              {| tm_role := "assistant";
                 tm_content := [ {| part_type := "text";
                                    text_value := "Go outside" |} ] |} ] |}.

Definition demo_context : UserContext :=
  {| healthGoals := Some ["sleep"; "stress"];
     mobilityLevel := None;
     preferredActivities := Some [];
     location := Some {| address := Some "Santa Monica" |} |}.

Definition demo_request (cid : option string) : Request :=
  {| method := "POST";
     authorization := Some "Bearer alice";
     json := Parsed {| message := Some "Plan a beach day";
                       conversationId := cid;
                       userContext := Some demo_context |} |}.

(** Bob owns conversation ["c-bob"] on thread ["thread_bob"]. *)
Definition demo_store : Store :=
  {| conversations :=
       [ {| id := "c-bob"; user_id := "bob"; assistant_type := health_coach;
            thread_id := "thread_bob"; created_at := 5; updated_at := 9 |} ];
     messages :=
       [ {| msg_id := "m-bob"; conversation_id := "c-bob"; role := user;
            content := "hello"; msg_created_at := 9 |} ] |}.

Definition demo_state : State :=
  {| store := demo_store; trace := []; polls := 0; now := 100 |}.

(** ** Vocabulary of the further statements *)

(** The function the SDK addresses for an assistant type: the directory
    [supabase/functions/<functionName>]. *)
Definition endpoint_config (ty : AssistantType) : Config :=
  match ty with
  | health_coach => health_coach_config
  | excursion_creator => excursion_creator_config
  end.

(** The request [sendMessage] builds (lines 64-80). *)
Definition sent_request (access_token msg : string)
  (cid : option string) (ctx : option UserContext) : Request :=
  {| method := "POST";
     authorization := Some ("Bearer " ++ access_token);
     json := Parsed {| message := Some msg; conversationId := cid;
                       userContext := ctx |} |}.

(** A network that hands the request for [<url>/functions/v1/<name>] to
    the function of that name and brings its response back. *)
Definition delivers (E : Env) (supabaseUrl : string)
  (fetch : string -> Request -> State -> Outcome Response * State) : Prop :=
  forall ty req st,
    fetch (supabaseUrl ++ "/functions/v1/" ++ AssistantsAPI.functionName ty)
          req st
    = (Return (fst (serve E (endpoint_config ty) req st)),
       snd (serve E (endpoint_config ty) req st)).

(** A request that passes the checks of lines 31-61: a caller is found for
    its [Authorization] header, its [message] is not empty, and the API key
    is configured. *)
Definition accepted (E : Env) (req : Request) (h uid : string)
  (b : ChatRequest) (msg : string) : Prop :=
  (method req =? "OPTIONS") = false
  /\ authorization req = Some h /\ truthy h = true
  /\ createClient_error E = None
  /\ auth_getUser E h = Some uid
  /\ json req = Parsed b
  /\ message b = Some msg /\ truthy msg = true
  /\ truthy_opt (env_get E "OPENAI_API_KEY") = true.

(** The thread a request of the remote service is about. *)
Definition event_thread (ev : Event) : option string :=
  match ev with
  | EvAddMessage thread _ => Some thread
  | EvCreateRun thread _ => Some thread
  | EvGetRun thread _ => Some thread
  | EvListMessages thread => Some thread
  | _ => None
  end.

(** No field of the user context yields an entry of [contextInfo]. *)
Definition no_context (c : UserContext) : bool :=
  negb (nonempty (healthGoals c)) && negb (truthy_opt (mobilityLevel c))
  && negb (nonempty (preferredActivities c))
  && negb (truthy_opt (location_address c)).

(** The policy "Users can create messages in own conversations": the
    caller owns a conversation with the id the message refers to. *)
Definition may_insert_message (s : Store) (caller cid : string) : bool :=
  existsb (fun c => (id c =? cid) && (user_id c =? caller)) (conversations s).

(** Every message refers to a conversation of the store (the foreign key
    of [messages.conversation_id]). *)
Definition references_hold (s : Store) : Prop :=
  forall m, In m (messages s) ->
            exists c, In c (conversations s) /\ id c = conversation_id m.

(** A network for the examples: it delivers to the two functions of
    [demo_env] under the base url ["https://demo.supabase.co"]. *)
Definition demo_fetch (E : Env) (url : string) (req : Request) (st : State)
  : Outcome Response * State :=
  if url =? "https://demo.supabase.co/functions/v1/health-coach-assistant"
  then (Return (fst (health_coach_assistant E req st)),
        snd (health_coach_assistant E req st))
  else if url
          =? "https://demo.supabase.co/functions/v1/excursion-creator-assistant"
  then (Return (fst (excursion_creator_assistant E req st)),
        snd (excursion_creator_assistant E req st))
  else (Throw (JsError "Network request failed"), st).


(** ** Proof automation *)

(** Case analysis on the innermost test the goal is stuck on. *)
Ltac case_step :=
  match goal with
  | |- context [match ?x with _ => _ end] =>
      lazymatch x with
      | context [match _ with _ => _ end] => fail
      | _ => destruct x eqn:?
      end
  end.

Ltac run_handler :=
  unfold bind, emit, check, throw, ret; cbn;
  repeat (case_step; cbn).

(** The trace of the goal's state is the initial trace and a suffix. *)
Ltac trace_suffix :=
  cbn [snd trace log set_store];
  repeat rewrite <- app_assoc;
  solve [ eexists; reflexivity
        | exists (@nil Event); now rewrite app_nil_r ].

(** * Properties *)

(** ** The monad *)

Lemma bind_ok {A B} (m : M A) (k : A -> M B) st a st' :
  m st = (Return a, st') -> bind m k st = k a st'.
Proof. intros H. unfold bind. now rewrite H. Qed.

Lemma bind_throw {A B} (m : M A) (k : A -> M B) st e st' :
  m st = (Throw e, st') -> bind m k st = (Throw e, st').
Proof. intros H. unfold bind. now rewrite H. Qed.

Lemma bind_inv {A B} (m : M A) (k : A -> M B) st b st2 :
  bind m k st = (Return b, st2) ->
  exists a st1, m st = (Return a, st1) /\ k a st1 = (Return b, st2).
Proof.
  unfold bind. destruct (m st) as [[a|e] st1]; intros H.
  - now exists a, st1.
  - discriminate.
Qed.

(** ** The poll loop *)

Lemma poll_loop_step E t r rs a st :
  poll_loop E t r rs a st =
  if keep_polling rs a
  then
    match (_ <- sleep 1000 ;; get_run_status E t r) st with
    | (Throw e, st') => (Throw e, st')
    | (Return s, st') =>
        if run_ended s
        then (Throw (JsError ("Assistant run " ++ s)), st')
        else poll_loop E t r s (S a) st'
    end
  else (Return rs, st).
Proof.
  funelim (poll_loop E t r rs a st).
  - rewrite e. reflexivity.
  - rewrite Hc, Heq. reflexivity.
  - rewrite Hc, Heq. reflexivity.
Qed.

Lemma polled_0 t r st : polled t r 0 st = st.
Proof.
  destruct st as [s tr p n]. unfold polled. simpl.
  rewrite app_nil_r, Nat.add_0_r, Z.add_0_r. reflexivity.
Qed.

Lemma polled_S t r n st : polled t r n (polled t r 1 st) = polled t r (S n) st.
Proof.
  unfold polled. cbn [store trace polls now]. f_equal.
  - rewrite <- app_assoc. reflexivity.
  - lia.
  - rewrite Nat2Z.inj_succ. change (Z.of_nat 1) with 1%Z. lia.
Qed.

Lemma poll_once E t r st :
  (_ <- sleep 1000 ;; get_run_status E t r) st =
  (match get_run E t r (polls st) with
   | Ok s => Return s
   | NotOk => Throw (JsError "Failed to check run status")
   | Rejected m => Throw (JsError m)
   end, polled t r 1 st).
Proof.
  unfold bind, sleep, get_run_status, check, throw, ret, polled. simpl.
  rewrite <- app_assoc, Nat.add_1_r. simpl.
  destruct (get_run E t r (polls st)); reflexivity.
Qed.

Lemma pending_not_completed s : pending s = true -> (s =? "completed") = false.
Proof.
  unfold pending. intros H. apply andb_true_iff in H.
  destruct H as [H _]. now apply negb_true_iff in H.
Qed.

Lemma pending_not_ended s : pending s = true -> run_ended s = false.
Proof.
  unfold pending. intros H. apply andb_true_iff in H.
  destruct H as [_ H]. now apply negb_true_iff in H.
Qed.

Lemma keep_polling_true rs a :
  (rs =? "completed") = false -> a < maxAttempts -> keep_polling rs a = true.
Proof.
  intros H Ha. unfold keep_polling. rewrite H. simpl.
  now apply Nat.ltb_lt.
Qed.

(** While the polled statuses are pending, the loop only advances. *)
Lemma poll_loop_pending E t r : forall n rs a st,
  (rs =? "completed") = false ->
  a + n <= maxAttempts ->
  (forall i, i < n ->
     exists s, get_run E t r (polls st + i) = Ok s /\ pending s = true) ->
  exists s',
    poll_loop E t r rs a st = poll_loop E t r s' (a + n) (polled t r n st)
    /\ (s' =? "completed") = false.
Proof.
  induction n as [|n IH]; intros rs a st Hrs Ha Hp.
  - exists rs. rewrite Nat.add_0_r, polled_0. auto.
  - destruct (Hp 0) as [s [Hs Hps]]; [lia|].
    rewrite Nat.add_0_r in Hs.
    destruct (IH s (S a) (polled t r 1 st)) as [s' [Hl Hs']].
    + now apply pending_not_completed.
    + lia.
    + intros i Hi. destruct (Hp (S i)) as [x Hx]; [lia|].
      exists x. simpl. now replace (polls st + 1 + i) with (polls st + S i) by lia.
    + exists s'. split; [|exact Hs'].
      rewrite poll_loop_step, keep_polling_true, poll_once, Hs by (auto; lia).
      rewrite (pending_not_ended _ Hps), Hl, polled_S.
      now replace (S a + n) with (a + S n) by lia.
Qed.

Lemma poll_loop_exhausted E t r rs st :
  poll_loop E t r rs maxAttempts st = (Return rs, st).
Proof.
  rewrite poll_loop_step. unfold keep_polling.
  rewrite Nat.ltb_irrefl, andb_false_r. reflexivity.
Qed.

Lemma poll_loop_completed E t r a st :
  poll_loop E t r "completed" a st = (Return "completed", st).
Proof. rewrite poll_loop_step. reflexivity. Qed.

Lemma keep_polling_lt rs a : keep_polling rs a = true -> a < maxAttempts.
Proof.
  unfold keep_polling. intros H. apply andb_true_iff in H.
  destruct H as [_ H]. now apply Nat.ltb_lt in H.
Qed.

(** The state a run of the loop ends in is the state some number of
    rounds later, at most as many as there were attempts left. *)
Lemma poll_loop_state E t r rs a st :
  exists n, snd (poll_loop E t r rs a st) = polled t r n st
            /\ n <= maxAttempts - a.
Proof.
  funelim (poll_loop E t r rs a st).
  - exists 0. rewrite polled_0. split; [reflexivity | lia].
  - rewrite poll_once in Heq. inversion Heq; subst st'. clear Heq.
    pose proof (keep_polling_lt _ _ Hc) as Ha.
    destruct (run_ended s).
    + exists 1. split; [reflexivity | lia].
    + destruct H as [n [Hn Hle]]. exists (S n).
      rewrite Hn, polled_S. split; [reflexivity | lia].
  - rewrite poll_once in Heq. inversion Heq; subst st'.
    pose proof (keep_polling_lt _ _ Hc) as Ha.
    exists 1. split; [reflexivity | lia].
Qed.

Lemma serve_post E cfg req st :
  (method req =? "OPTIONS") = false ->
  serve E cfg req st = respond (handler_try E cfg req st).
Proof.
  intros H. unfold serve, respond. rewrite H.
  destruct (handler_try E cfg req st) as [[d|e] st']; reflexivity.
Qed.

Lemma handler_try_submitted E cfg req st t run st1 :
  submit_turn E cfg req st = (Return (t, run), st1) ->
  handler_try E cfg req st =
  (_ <- poll_for_completion E (threadId t) run ;; reply_turn E t) st1.
Proof.
  unfold submit_turn, handler_try. intros H.
  apply bind_inv in H. destruct H as [t0 [s0 [H0 H]]].
  apply bind_inv in H. destruct H as [[] [s1 [H1 H]]].
  apply bind_inv in H. destruct H as [r0 [s2 [H2 H]]].
  inversion H; subst.
  rewrite (bind_ok _ _ _ _ _ H0), (bind_ok _ _ _ _ _ H1).
  now rewrite (bind_ok _ _ _ _ _ H2).
Qed.

Lemma reply_turn_polls E t st : polls (snd (reply_turn E t st)) = polls st.
Proof.
  unfold reply_turn, get_assistant_response, list_messages, insert_message.
  run_handler; reflexivity.
Qed.

Lemma respond_snd r : snd (respond r) = snd r.
Proof. destruct r as [[d|e] s]; reflexivity. Qed.

Lemma polled_polls t r n st : polls (polled t r n st) = polls st + n.
Proof. reflexivity. Qed.

(** From the creation of the run on, a turn polls at most [maxAttempts]
    times. *)
Lemma poll_then_reply_polls E t run st :
  let st' := snd ((_ <- poll_for_completion E (threadId t) run ;;
                   reply_turn E t) st) in
  polls st <= polls st' <= polls st + maxAttempts.
Proof.
  unfold poll_for_completion. unfold bind.
  destruct (poll_loop_state E (threadId t) (run_id run) (run_status run) 0 st)
    as [n [Hn Hle]].
  destruct (poll_loop E (threadId t) (run_id run) (run_status run) 0 st)
    as [[s|e] st2]; simpl in Hn; subst st2; cbn zeta.
  - destruct (negb (s =? "completed")); unfold throw, ret; cbn [snd].
    + rewrite polled_polls. lia.
    + rewrite reply_turn_polls, polled_polls. lia.
  - cbn [snd]. rewrite polled_polls. lia.
Qed.

Lemma open_turn_polls E cfg req st :
  polls (snd (open_turn E cfg req st)) = polls st.
Proof.
  unfold open_turn, authenticate, parse_body, get_api_key,
    resolve_conversation, create_conversation, select_conversation,
    create_thread, insert_conversation, insert_message.
  run_handler; reflexivity.
Qed.

Lemma append_turn_polls E cfg t st :
  polls (snd (append_turn E cfg t st)) = polls st.
Proof. unfold append_turn, add_message. run_handler; reflexivity. Qed.

Lemma start_run_polls E cfg t st :
  polls (snd (start_run E cfg t st)) = polls st.
Proof. unfold start_run, create_run. run_handler; reflexivity. Qed.

(** A request polls at most [maxAttempts] times, whatever it is answered
    by the outside world. *)
Lemma serve_polls E cfg req st :
  polls (snd (serve E cfg req st)) <= polls st + maxAttempts.
Proof.
  unfold serve. destruct (method req =? "OPTIONS"); [cbn [snd]; lia|].
  change (polls (snd (respond (handler_try E cfg req st)))
          <= polls st + maxAttempts).
  rewrite respond_snd. unfold handler_try. unfold bind at 1.
  pose proof (open_turn_polls E cfg req st) as Ho.
  destruct (open_turn E cfg req st) as [[t|e] s0]; cbn [snd] in *; [|lia].
  unfold bind at 1.
  pose proof (append_turn_polls E cfg t s0) as Ha.
  destruct (append_turn E cfg t s0) as [[[]|e] s1]; cbn [snd] in *; [|lia].
  unfold bind at 1.
  pose proof (start_run_polls E cfg t s1) as Hr.
  destruct (start_run E cfg t s1) as [[run|e] s2]; cbn [snd] in *; [|lia].
  pose proof (poll_then_reply_polls E t run s2) as Hp. cbv zeta in Hp. lia.
Qed.

(** C1. Whatever the outside world answers, a request performs at most 30
    status polls: the loop always ends.  A run whose status is not
    ["completed"] in the create-run response and whose polls all report a
    status other than ["completed"], ["failed"], ["cancelled"] and
    ["expired"] is polled exactly 30 times, one second apart, and the
    request is then answered with status 500 and
    ["Assistant run timed out"]. *)
Theorem pending_run_times_out E cfg req st :
  polls (snd (serve E cfg req st)) <= polls st + 30
  /\ forall t run st1,
       (method req =? "OPTIONS") = false ->
       submit_turn E cfg req st = (Return (t, run), st1) ->
       (run_status run =? "completed") = false ->
       (forall i, i < 30 ->
          exists s, get_run E (threadId t) (run_id run) (polls st1 + i) = Ok s
                    /\ pending s = true) ->
       serve E cfg req st
       = (error_response "Assistant run timed out",
          polled (threadId t) (run_id run) 30 st1).
Proof.
  split; [apply serve_polls|].
  intros t run st1 Hm Hs Hrs Hp.
  rewrite (serve_post _ _ _ _ Hm), (handler_try_submitted _ _ _ _ _ _ _ Hs).
  destruct (poll_loop_pending E (threadId t) (run_id run) 30
              (run_status run) 0 st1 Hrs (Nat.le_refl _) Hp)
    as [s' [Hl Hs']].
  change (0 + 30) with maxAttempts in Hl.
  rewrite poll_loop_exhausted in Hl.
  unfold poll_for_completion.
  rewrite (bind_throw _ _ st1 (JsError "Assistant run timed out")
             (polled (threadId t) (run_id run) 30 st1)).
  - reflexivity.
  - rewrite (bind_ok _ _ _ _ _ Hl), Hs'. reflexivity.
Qed.

Lemma pending_run_times_out_witness :
  let E := demo_env "queued" (fun _ => Ok "in_progress") (Ok tt) in
  let r := serve E health_coach_config (demo_request None) demo_state in
  fst r = error_response "Assistant run timed out" /\ polls (snd r) = 30.
Proof.
  intros E r. subst r.
  destruct (pending_run_times_out E health_coach_config (demo_request None)
              demo_state) as [_ H].
  epose proof (H _ _ _ eq_refl eq_refl eq_refl) as H'.
  rewrite H'.
  - split; reflexivity.
  - intros i _. exists "in_progress". split; reflexivity.
Defined.

Lemma poll_events_add t r n m :
  poll_events t r (n + m) = (poll_events t r n ++ poll_events t r m)%list.
Proof.
  induction n as [|n IH]; simpl; [reflexivity | now rewrite IH].
Qed.

Lemma polled_add t r n m st :
  polled t r m (polled t r n st) = polled t r (n + m) st.
Proof.
  unfold polled. cbn [store trace polls now]. f_equal.
  - now rewrite poll_events_add, app_assoc.
  - lia.
  - rewrite Nat2Z.inj_add. lia.
Qed.

(** C2. A poll that reports ["failed"], ["cancelled"] or ["expired"] is the
    last one: when the [n] polls before it reported pending statuses, the
    turn ends after exactly [n + 1] polls and is answered with status 500
    and ["Assistant run <status>"]. *)
Theorem ended_run_stops_polling E cfg req st t run st1 n s :
  (method req =? "OPTIONS") = false ->
  submit_turn E cfg req st = (Return (t, run), st1) ->
  (run_status run =? "completed") = false ->
  n < 30 ->
  (forall i, i < n ->
     exists s', get_run E (threadId t) (run_id run) (polls st1 + i) = Ok s'
                /\ pending s' = true) ->
  get_run E (threadId t) (run_id run) (polls st1 + n) = Ok s ->
  run_ended s = true ->
  serve E cfg req st
  = (error_response ("Assistant run " ++ s),
     polled (threadId t) (run_id run) (S n) st1).
Proof.
  intros Hm Hs Hrs Hn Hp Hg He.
  rewrite (serve_post _ _ _ _ Hm), (handler_try_submitted _ _ _ _ _ _ _ Hs).
  destruct (poll_loop_pending E (threadId t) (run_id run) n
              (run_status run) 0 st1 Hrs) as [s' [Hl Hs']];
    [unfold maxAttempts; lia | exact Hp |].
  unfold poll_for_completion.
  rewrite (bind_throw _ _ st1 (JsError ("Assistant run " ++ s))
             (polled (threadId t) (run_id run) (S n) st1)).
  - reflexivity.
  - apply bind_throw. rewrite Hl, poll_loop_step.
    rewrite keep_polling_true by (auto; unfold maxAttempts; lia).
    rewrite poll_once, polled_polls, Hg, He, polled_add.
    now rewrite Nat.add_1_r.
Qed.

Lemma ended_run_stops_polling_witness :
  let E := demo_env "queued"
             (fun n => if Nat.ltb n 2 then Ok "in_progress" else Ok "expired")
             (Ok tt) in
  let r := serve E excursion_creator_config (demo_request None) demo_state in
  fst r = error_response "Assistant run expired" /\ polls (snd r) = 3.
Proof.
  intros E r. subst r.
  epose proof (ended_run_stops_polling E excursion_creator_config
                 (demo_request None) demo_state _ _ _ 2 "expired"
                 eq_refl eq_refl eq_refl) as H.
  rewrite H.
  - split; reflexivity.
  - lia.
  - intros i Hi. exists "in_progress".
    destruct i as [|[|i]]; [split; reflexivity | split; reflexivity | lia].
  - reflexivity.
  - reflexivity.
Defined.

Lemma reply_turn_now E t st : now (snd (reply_turn E t st)) = now st.
Proof.
  unfold reply_turn, get_assistant_response, list_messages, insert_message.
  run_handler; reflexivity.
Qed.

Lemma reply_turn_trace E t st :
  exists evs, trace (snd (reply_turn E t st)) = (trace st ++ evs)%list.
Proof.
  unfold reply_turn, get_assistant_response, list_messages, insert_message.
  run_handler; trace_suffix.
Qed.

Lemma finish_turn_grows E t run rs a st :
  let st' := snd (finish_turn E t run rs a st) in
  polls st <= polls st'
  /\ exists evs, trace st' = (trace st ++ evs)%list.
Proof.
  unfold finish_turn. unfold bind.
  destruct (poll_loop_state E (threadId t) (run_id run) rs a st)
    as [n [Hn _]].
  destruct (poll_loop E (threadId t) (run_id run) rs a st)
    as [[s|e] st2]; simpl in Hn; subst st2; cbn zeta.
  - destruct (negb (s =? "completed")); unfold throw, ret; cbn [snd].
    + split; [rewrite polled_polls; lia | now eexists].
    + rewrite reply_turn_polls, polled_polls. split; [lia|].
      destruct (reply_turn_trace E t
                  (polled (threadId t) (run_id run) n st)) as [evs Hevs].
      rewrite Hevs. cbn [polled trace]. rewrite <- app_assoc. now eexists.
  - cbn [snd]. split; [rewrite polled_polls; lia | now eexists].
Qed.

(** One round of the loop, seen from the rest of the turn. *)
Lemma finish_turn_step E t run rs a st :
  keep_polling rs a = true ->
  finish_turn E t run rs a st =
  match get_run E (threadId t) (run_id run) (polls st) with
  | Rejected m =>
      (Throw (JsError m), polled (threadId t) (run_id run) 1 st)
  | NotOk =>
      (Throw (JsError "Failed to check run status"),
       polled (threadId t) (run_id run) 1 st)
  | Ok s =>
      if run_ended s
      then (Throw (JsError ("Assistant run " ++ s)),
            polled (threadId t) (run_id run) 1 st)
      else finish_turn E t run s (S a) (polled (threadId t) (run_id run) 1 st)
  end.
Proof.
  intros Hk. unfold finish_turn. unfold bind at 1 2.
  rewrite poll_loop_step, Hk, poll_once.
  destruct (get_run E (threadId t) (run_id run) (polls st)) as [m| |s];
    try reflexivity.
  destruct (run_ended s); reflexivity.
Qed.

Lemma finish_turn_completed E t run a st :
  finish_turn E t run "completed" a st = reply_turn E t st.
Proof.
  unfold finish_turn. unfold bind at 1 2.
  now rewrite poll_loop_completed.
Qed.

Lemma run_ended_not_completed s :
  run_ended s = true -> (s =? "completed") = false.
Proof.
  unfold run_ended. intros H.
  apply orb_true_iff in H. destruct H as [H|H];
    [apply orb_true_iff in H; destruct H as [H|H]|];
    apply String.eqb_eq in H; subst s; reflexivity.
Qed.

Lemma handler_try_finish E cfg req st t run st1 :
  submit_turn E cfg req st = (Return (t, run), st1) ->
  handler_try E cfg req st = finish_turn E t run (run_status run) 0 st1.
Proof. intros H. now rewrite (handler_try_submitted _ _ _ _ _ _ _ H). Qed.

(** C9. The status of the create-run response is only compared with
    ["completed"].  When it is ["failed"], ["cancelled"] or ["expired"]
    the turn still sleeps and polls at least once; it fails with
    ["Assistant run <status>"] for the status that poll reports, and goes
    on to the reply when that poll reports ["completed"].  When the
    create-run response reports ["completed"] the turn goes to the reply
    with no poll and no sleep, and is answered with status 200 when the
    reply can be read and stored. *)
Theorem create_run_status_not_checked E cfg req st t run st1 :
  (method req =? "OPTIONS") = false ->
  submit_turn E cfg req st = (Return (t, run), st1) ->
  (run_ended (run_status run) = true ->
   polls st1 + 1 <= polls (snd (serve E cfg req st))
   /\ (exists evs,
         trace (snd (serve E cfg req st))
         = (trace st1 ++ EvSleep 1000
              :: EvGetRun (threadId t) (run_id run) :: evs)%list)
   /\ (forall s,
         get_run E (threadId t) (run_id run) (polls st1) = Ok s ->
         run_ended s = true ->
         serve E cfg req st
         = (error_response ("Assistant run " ++ s),
            polled (threadId t) (run_id run) 1 st1))
   /\ (get_run E (threadId t) (run_id run) (polls st1) = Ok "completed" ->
       serve E cfg req st
       = respond (reply_turn E t (polled (threadId t) (run_id run) 1 st1))))
  /\ (run_status run = "completed" ->
      serve E cfg req st = respond (reply_turn E t st1)
      /\ polls (snd (serve E cfg req st)) = polls st1
      /\ now (snd (serve E cfg req st)) = now st1
      /\ (forall d m c,
            get_messages E (threadId t) = Ok d ->
            find is_assistant d = Some m ->
            find is_text (tm_content m) = Some c ->
            insert_message_error E assistant = None ->
            fst (serve E cfg req st)
            = ok_response {| response := text_value c;
                             resp_conversationId := dbConversationId t;
                             resp_threadId := threadId t |})).
Proof.
  intros Hm Hs.
  rewrite (serve_post _ _ _ _ Hm), (handler_try_finish _ _ _ _ _ _ _ Hs).
  split.
  - intros He.
    assert (Hk : keep_polling (run_status run) 0 = true).
    { apply keep_polling_true;
        [now apply run_ended_not_completed | unfold maxAttempts; lia]. }
    rewrite (finish_turn_step _ _ _ _ _ _ Hk). repeat split.
    + rewrite respond_snd.
      destruct (get_run E (threadId t) (run_id run) (polls st1)) as [m| |s];
        [| |destruct (run_ended s)]; try (cbn [snd polled polls]; lia).
      destruct (finish_turn_grows E t run s 1
                  (polled (threadId t) (run_id run) 1 st1)) as [Hp _].
      rewrite polled_polls in Hp. exact Hp.
    + rewrite respond_snd.
      destruct (get_run E (threadId t) (run_id run) (polls st1)) as [m| |s];
        [| |destruct (run_ended s)];
        try (exists (@nil Event); reflexivity).
      destruct (finish_turn_grows E t run s 1
                  (polled (threadId t) (run_id run) 1 st1)) as [_ [evs Hevs]].
      exists evs. rewrite Hevs. cbn [polled trace poll_events].
      now rewrite <- app_assoc.
    + intros s Hg Hes. now rewrite Hg, Hes.
    + intros Hg. rewrite Hg. cbn [run_ended String.eqb Ascii.eqb Bool.eqb orb].
      now rewrite finish_turn_completed.
  - intros Hc. rewrite Hc, finish_turn_completed, respond_snd.
    rewrite reply_turn_polls, reply_turn_now. repeat split.
    intros d m c Hd Hfm Hfc Hi.
    unfold reply_turn, get_assistant_response, list_messages, insert_message.
    unfold bind, emit, throw, ret. cbn.
    rewrite Hd. cbn. rewrite Hfm, Hfc. cbn. rewrite Hi. reflexivity.
Qed.

Lemma create_run_status_not_checked_witness :
  let E := demo_env "failed" (fun _ => Ok "completed") (Ok tt) in
  let r := serve E health_coach_config (demo_request None) demo_state in
  fst r = ok_response {| response := "Go outside";
                         resp_conversationId := "iii";
                         resp_threadId := "thread_1" |}
  /\ polls (snd r) = 1.
Proof.
  intros E r. subst r.
  epose proof (create_run_status_not_checked E health_coach_config
                 (demo_request None) demo_state _ _ _ eq_refl eq_refl)
    as [H _].
  destruct (H eq_refl) as [_ [_ [_ Hc]]].
  rewrite (Hc eq_refl). split; reflexivity.
Defined.

(** ** What a resolved turn does to the state *)

Lemma turn_step_refl cfg t st : turn_step cfg t st st.
Proof.
  exists [], []. now rewrite !app_nil_r.
Qed.

Lemma turn_step_trans cfg t st1 st2 st3 :
  turn_step cfg t st1 st2 -> turn_step cfg t st2 st3 -> turn_step cfg t st1 st3.
Proof.
  intros [e1 [n1 [Ht1 [Fe1 [Hm1 [Fn1 Hc1]]]]]] [e2 [n2 [Ht2 [Fe2 [Hm2 [Fn2 Hc2]]]]]].
  exists (e1 ++ e2)%list, (n1 ++ n2)%list.
  rewrite Ht2, Ht1, Hm2, Hm1, Hc2, Hc1, <- !app_assoc.
  repeat split; auto using Forall_app.
  - apply Forall_app. now split.
  - apply Forall_app. now split.
Qed.

Lemma turn_step_log cfg t ev st :
  about cfg t ev -> turn_step cfg t st (log ev st).
Proof.
  intros H. exists [ev], []. cbn [log trace store].
  rewrite app_nil_r. repeat split; auto.
Qed.

Lemma poll_events_about cfg t r n :
  Forall (about cfg t) (poll_events (threadId t) r n).
Proof.
  induction n as [|n IH]; simpl; [constructor|].
  repeat constructor. exact IH.
Qed.

Lemma turn_step_polled cfg t r n st :
  turn_step cfg t st (polled (threadId t) r n st).
Proof.
  exists (poll_events (threadId t) r n), []. cbn [polled trace store].
  rewrite app_nil_r. repeat split; auto using poll_events_about.
Qed.

Lemma touch_key cid z cs :
  map conversation_key (map (touch cid z) cs) = map conversation_key cs.
Proof.
  rewrite map_map. apply map_ext. intros c. unfold touch.
  destruct (id c =? cid); reflexivity.
Qed.

Lemma append_turn_state E cfg t st :
  snd (append_turn E cfg t st)
  = log (EvAddMessage (threadId t)
           (cfg_thread_content cfg (turn_message t) (turn_userContext t))) st.
Proof.
  unfold append_turn, add_message. run_handler; reflexivity.
Qed.

Lemma start_run_step E cfg t st :
  turn_step cfg t st (snd (start_run E cfg t st)).
Proof.
  unfold start_run, create_run. run_handler;
    try apply turn_step_refl; now apply turn_step_log.
Qed.

Lemma poll_for_completion_state E t run st :
  exists n, snd (poll_for_completion E (threadId t) run st)
            = polled (threadId t) (run_id run) n st.
Proof.
  unfold poll_for_completion, bind.
  destruct (poll_loop_state E (threadId t) (run_id run) (run_status run) 0 st)
    as [n [Hn _]].
  exists n.
  destruct (poll_loop E (threadId t) (run_id run) (run_status run) 0 st)
    as [[s|e] st2]; simpl in Hn; subst st2; [|reflexivity].
  destruct (negb (s =? "completed")); reflexivity.
Qed.

Lemma reply_turn_step E cfg t st :
  turn_step cfg t st (snd (reply_turn E t st))
  /\ forall d, fst (reply_turn E t st) = Return d ->
               resp_threadId d = threadId t
               /\ resp_conversationId d = dbConversationId t.
Proof.
  unfold reply_turn, get_assistant_response, list_messages, insert_message.
  run_handler; (split; [|intros d Hd; inversion Hd; now subst]).
  all: try (now apply turn_step_log).
  all: try (eapply turn_step_trans;
            [apply (turn_step_log cfg t (EvListMessages (threadId t)));
             reflexivity|]).
  - apply turn_step_log. now split.
  - exists [EvInsertMessage (dbConversationId t) assistant (text_value c)].
    eexists [_]. cbn [log trace store set_store messages conversations].
    rewrite touch_key. repeat split; repeat constructor; reflexivity.
Qed.

Lemma close_turn_effects E cfg t st :
  turn_step cfg t st (snd (close_turn E cfg t st))
  /\ forall d, fst (close_turn E cfg t st) = Return d ->
               resp_threadId d = threadId t
               /\ resp_conversationId d = dbConversationId t.
Proof.
  unfold close_turn. unfold bind.
  pose proof (append_turn_state E cfg t st) as Ha.
  destruct (append_turn E cfg t st) as [[[]|e] s1]; simpl in Ha; subst s1;
    [|split; [now apply turn_step_log | discriminate]].
  assert (H1 : turn_step cfg t st
                 (log (EvAddMessage (threadId t)
                         (cfg_thread_content cfg (turn_message t)
                            (turn_userContext t))) st))
    by now apply turn_step_log.
  pose proof (start_run_step E cfg t
                (log (EvAddMessage (threadId t)
                        (cfg_thread_content cfg (turn_message t)
                           (turn_userContext t))) st)) as H2.
  destruct (start_run E cfg t _) as [[run|e] s2]; simpl in H2;
    [|split; [eauto using turn_step_trans | discriminate]].
  destruct (poll_for_completion_state E t run s2) as [n Hn].
  destruct (poll_for_completion E (threadId t) run s2) as [[[]|e] s3];
    simpl in Hn; subst s3.
  - destruct (reply_turn_step E cfg t (polled (threadId t) (run_id run) n s2))
      as [H4 Hd].
    split; [|exact Hd].
    eauto using turn_step_trans, turn_step_polled.
  - split; [|discriminate].
    eauto using turn_step_trans, turn_step_polled.
Qed.



(** ** What the opening of a turn does to the state *)

Lemma truthy_opt_some o :
  truthy_opt o = true -> exists s, o = Some s /\ truthy s = true.
Proof.
  destruct o as [s|]; [|discriminate]. intros H. now exists s.
Qed.

Lemma negb_false b : negb b = false -> b = true.
Proof. now destruct b. Qed.

Lemma resolve_conversation_effects E cfg req uid cid st :
  let st' := snd (resolve_conversation E cfg uid cid st) in
  messages (store st') = messages (store st)
  /\ exists evs, trace st' = (trace st ++ evs)%list /\ Forall (opening req) evs.
Proof.
  unfold resolve_conversation, create_conversation, select_conversation,
    create_thread, insert_conversation.
  run_handler; (split; [reflexivity|]);
    cbn [trace log set_store]; repeat rewrite <- app_assoc;
    eexists; (split; [reflexivity | repeat constructor]).
Qed.

Lemma open_turn_inv E cfg req st t st1 :
  open_turn E cfg req st = (Return t, st1) ->
  exists h b st0,
    authorization req = Some h /\ truthy h = true
    /\ createClient_error E = None
    /\ auth_getUser E h = Some (turn_user t)
    /\ json req = Parsed b
    /\ message b = Some (turn_message t)
    /\ turn_userContext t = userContext b
    /\ truthy_opt (env_get E "OPENAI_API_KEY") = true
    /\ resolve_conversation E cfg (turn_user t) (conversationId b)
         (log (EvGetUser h) st)
       = (Return (threadId t, dbConversationId t), st0)
    /\ insert_message_error E user = None
    /\ st1 = message_inserted E (dbConversationId t) user (turn_message t) st0.
Proof.
  unfold open_turn, authenticate, parse_body, get_api_key, insert_message.
  run_handler; intros H; try discriminate.
  inversion H; subst; clear H. cbn.
  apply negb_false in Heqb, Heqb0, Heqb1.
  apply truthy_opt_some in Heqb. destruct Heqb as [h [Hh Hth]].
  apply truthy_opt_some in Heqb0. destruct Heqb0 as [m [Hm Htm]].
  rewrite Hh in *. rewrite Hm in *. cbn in *.
  exists h, b, s0. destruct a as [th c]. repeat split; auto.
Qed.

Lemma or_empty_original req b :
  json req = Parsed b ->
  negb (truthy_opt (message b)) = false ->
  original_message req (or_empty (message b)).
Proof.
  intros Hj Hm. apply negb_false, truthy_opt_some in Hm.
  destruct Hm as [m [Hm _]]. exists b. rewrite Hm. now split.
Qed.

(** Whatever its outcome, the opening of a turn issues opening requests
    only and stores at most the original message, as ["user"]. *)
Lemma open_turn_effects E cfg req st :
  let st' := snd (open_turn E cfg req st) in
  exists evs new,
    trace st' = (trace st ++ evs)%list
    /\ Forall (opening req) evs
    /\ messages (store st') = (messages (store st) ++ new)%list
    /\ Forall (fun m => role m = user /\ original_message req (content m)) new.
Proof.
  intros st'. subst st'.
  destruct (open_turn E cfg req st) as [o st1] eqn:Ho. cbn [snd].
  revert Ho.
  unfold open_turn, authenticate, parse_body, get_api_key, insert_message.
  run_handler; intros H; inversion H; subst; clear H.
  all: try match goal with
       | Hr : resolve_conversation _ _ ?u ?c ?s = (_, ?s') |- _ =>
           let Hm := fresh "Hm" in
           let evs := fresh "evs" in
           let Ht := fresh "Ht" in
           let Hf := fresh "Hf" in
           destruct (resolve_conversation_effects E cfg req u c s)
             as [Hm [evs [Ht Hf]]];
           rewrite Hr in Hm, Ht; cbn [snd] in Hm, Ht
       end.
  all: cbn [trace log set_store store messages];
    try rewrite Ht; try rewrite Hm; cbn [trace log store];
    repeat rewrite <- app_assoc.
  all: try (exists [], []; rewrite !app_nil_r; now repeat split).
  all: try (eexists; exists [];
            split; [reflexivity|];
            split; [|split; [now rewrite app_nil_r | constructor]]).
  all: try (eexists; eexists [_];
            split; [reflexivity|];
            split; [|split; [reflexivity|]]).
  all: try (constructor; [exact I|]).
  all: try (apply Forall_app; split; [assumption|]).
  all: repeat constructor; try assumption.
  all: cbn [content]; eauto using or_empty_original.
Qed.

(** ** A whole turn *)

Lemma handler_try_split E cfg req st :
  handler_try E cfg req st = (t <- open_turn E cfg req ;; close_turn E cfg t) st.
Proof. reflexivity. Qed.

Lemma message_inserted_messages E cid r text st :
  messages (store (message_inserted E cid r text st))
  = (messages (store st) ++ [message_row E st cid r text])%list.
Proof. reflexivity. Qed.

(** What a request adds to the trace and to the stored messages: every
    ["user"] row and every ["user"] insert carries the original message;
    every append to the thread carries the configured content of the
    original message, which is stored as a ["user"] row by then. *)
Lemma turn_effects E cfg req st :
  let st' := snd (serve E cfg req st) in
  exists evs new,
    trace st' = (trace st ++ evs)%list
    /\ messages (store st') = (messages (store st) ++ new)%list
    /\ (forall m, In m new -> role m = user ->
                  original_message req (content m))
    /\ (forall cid text, In (EvInsertMessage cid user text) evs ->
                         original_message req text)
    /\ (forall thread text, In (EvAddMessage thread text) evs ->
          exists b msg,
            json req = Parsed b /\ message b = Some msg
            /\ text = cfg_thread_content cfg msg (userContext b)
            /\ exists m, In m new /\ role m = user /\ content m = msg).
Proof.
  intros st'. subst st'. unfold serve.
  destruct (method req =? "OPTIONS").
  { exists [], []. rewrite !app_nil_r. cbn [snd].
    repeat split; intros; contradiction. }
  change (snd (let (o, st') := handler_try E cfg req st in
               match o with
               | Return responseData =>
                   ({| status := 200; headers := json_headers;
                       body := BodyChat responseData |}, st')
               | Throw e =>
                   ({| status := 500; headers := json_headers;
                       body := BodyError (error_message e) |}, st')
               end))
    with (snd (respond (handler_try E cfg req st))).
  rewrite respond_snd, handler_try_split. unfold bind.
  destruct (open_turn_effects E cfg req st) as [evs1 [new1 [Ht1 [Fe1 [Hm1 Fn1]]]]].
  destruct (open_turn E cfg req st) as [[t|e] st1] eqn:Ho; cbn [snd] in *.
  - destruct (open_turn_inv _ _ _ _ _ _ Ho)
      as [h [b [st0 [_ [_ [_ [_ [Hj [Hmsg [Hctx [_ [Hr [_ Hst1]]]]]]]]]]]]].
    destruct (resolve_conversation_effects E cfg req (turn_user t)
                (conversationId b) (log (EvGetUser h) st)) as [Hm0 _].
    rewrite Hr in Hm0. cbn [snd log store] in Hm0.
    assert (Hrow : messages (store st1)
                   = (messages (store st)
                      ++ [message_row E st0 (dbConversationId t) user
                            (turn_message t)])%list).
    { now rewrite Hst1, message_inserted_messages, Hm0. }
    destruct (close_turn_effects E cfg t st1)
      as [[evs2 [new2 [Ht2 [Fe2 [Hm2 [Fn2 _]]]]]] _].
    exists (evs1 ++ evs2)%list,
      (message_row E st0 (dbConversationId t) user (turn_message t) :: new2).
    rewrite Ht2, Ht1, Hm2, Hrow, <- !app_assoc.
    rewrite Forall_forall in Fe1, Fe2, Fn2.
    repeat split; auto.
    + intros m [Hm|Hm] Hu.
      * subst m. exists b. now split.
      * destruct (Fn2 _ Hm) as [Hra _]. congruence.
    + intros cid text Hin. apply in_app_or in Hin. destruct Hin as [Hin|Hin].
      * now destruct (Fe1 _ Hin).
      * destruct (Fe2 _ Hin) as [_ Hra]. discriminate.
    + intros thread text Hin. apply in_app_or in Hin. destruct Hin as [Hin|Hin].
      * destruct (Fe1 _ Hin).
      * destruct (Fe2 _ Hin) as [_ Htext].
        exists b, (turn_message t). rewrite <- Hctx. repeat split; auto.
        eexists. split; [left; reflexivity | now split].
  - exists evs1, new1. rewrite Forall_forall in Fe1, Fn1.
    repeat split; auto.
    + intros m Hm _. now destruct (Fn1 _ Hm).
    + intros cid text Hin. now destruct (Fe1 _ Hin).
    + intros thread text Hin. destruct (Fe1 _ Hin).
Qed.

(** C4. In the excursion-creator endpoint every ["user"] row a request adds
    to [messages], and every ["user"] insert it issues, carries the
    [message] of the request body unchanged; the text with the user-context
    annotation is what is appended to the remote thread, and nothing
    else. *)
Theorem stored_user_message_is_original E req st :
  let st' := snd (excursion_creator_assistant E req st) in
  (exists evs new,
     trace st' = (trace st ++ evs)%list
     /\ messages (store st') = (messages (store st) ++ new)%list
     /\ (forall m, In m new -> role m = user ->
                   original_message req (content m))
     /\ (forall cid text, In (EvInsertMessage cid user text) evs ->
                          original_message req text)
     /\ (forall thread text, In (EvAddMessage thread text) evs ->
           exists b msg,
             json req = Parsed b /\ message b = Some msg
             /\ text = messageContent msg (userContext b)))
  /\ (forall msg c, contextInfo c <> [] ->
        messageContent msg (Some c)
        = msg ++ nl ++ nl ++ "User Context:" ++ nl
              ++ String.concat nl (contextInfo c)).
Proof.
  intros st'. subst st'. split.
  - destruct (turn_effects E excursion_creator_config req st)
      as [evs [new [Ht [Hm [Hu [Hi Ha]]]]]].
    exists evs, new. repeat split; auto.
    intros thread text Hin.
    destruct (Ha _ _ Hin) as [b [msg [Hj [Hmsg [Htext _]]]]].
    now exists b, msg.
  - intros msg c Hc. unfold messageContent.
    destruct (contextInfo c); [contradiction | reflexivity].
Qed.

(** The example of the specification: the stored row holds the message as
    sent, the thread receives the annotated text. *)
Example beach_day :
  let E := demo_env "completed" (fun _ => NotOk) (Ok tt) in
  let r := excursion_creator_assistant E (demo_request None) demo_state in
  fst r = ok_response {| response := "Go outside";
                         resp_conversationId := "iii";
                         resp_threadId := "thread_1" |}
  /\ map (fun m => (conversation_id m, role m, content m))
         (messages (store (snd r)))
     = [ ("c-bob", user, "hello");
         ("iii", user, "Plan a beach day");
         ("iii", assistant, "Go outside") ]
  /\ map conversation_key (conversations (store (snd r)))
     = [ ("c-bob", "bob", health_coach, "thread_bob");
         ("iii", "alice", excursion_creator, "thread_1") ]
  /\ In (EvAddMessage "thread_1"
           ("Plan a beach day" ++ nl ++ nl ++ "User Context:" ++ nl
            ++ "Health Goals: sleep, stress" ++ nl
            ++ "Location: Santa Monica"))
        (trace (snd r)).
Proof.
  cbv zeta. repeat split; try reflexivity.
  vm_compute. tauto.
Qed.

Lemma open_turn_without_userContext E cfg req st :
  open_turn E cfg (without_userContext req) st
  = match open_turn E cfg req st with
    | (Return t, st1) =>
        (Return {| turn_user := turn_user t; turn_message := turn_message t;
                   turn_userContext := None; threadId := threadId t;
                   dbConversationId := dbConversationId t |}, st1)
    | (Throw e, st1) => (Throw e, st1)
    end.
Proof.
  unfold open_turn, authenticate, parse_body, get_api_key, insert_message,
    without_userContext.
  cbn [json authorization method].
  destruct (json req) as [m|b]; run_handler; reflexivity.
Qed.

Lemma close_turn_health_coach E t :
  close_turn E health_coach_config t
  = close_turn E health_coach_config
      {| turn_user := turn_user t; turn_message := turn_message t;
         turn_userContext := None; threadId := threadId t;
         dbConversationId := dbConversationId t |}.
Proof. reflexivity. Qed.

(** C10. The health-coach endpoint answers a request and changes the state
    exactly as it does for the same request without [userContext]; the
    text it appends to the remote thread is the original message, the very
    content of the ["user"] row it has stored. *)
Theorem health_coach_ignores_userContext E req st :
  health_coach_assistant E req st
  = health_coach_assistant E (without_userContext req) st
  /\ let st' := snd (health_coach_assistant E req st) in
     exists evs new,
       trace st' = (trace st ++ evs)%list
       /\ messages (store st') = (messages (store st) ++ new)%list
       /\ forall thread text, In (EvAddMessage thread text) evs ->
            original_message req text
            /\ exists m, In m new /\ role m = user /\ content m = text.
Proof.
  split.
  - unfold health_coach_assistant, serve.
    change (method (without_userContext req)) with (method req).
    destruct (method req =? "OPTIONS"); [reflexivity|].
    rewrite !handler_try_split. unfold bind.
    rewrite open_turn_without_userContext.
    destruct (open_turn E health_coach_config req st) as [[t|e] st1];
      [|reflexivity].
    now rewrite <- close_turn_health_coach.
  - intros st'. subst st'.
    destruct (turn_effects E health_coach_config req st)
      as [evs [new [Ht [Hm [Hu [Hi Ha]]]]]].
    exists evs, new. repeat split; auto;
      destruct (Ha _ _ H) as [b [msg [Hj [Hmsg [Htext Hrow]]]]];
      cbn in Htext; subst text.
    + now exists b.
    + exact Hrow.
Qed.

(** C3. When the append call of a turn is not answered with success, the
    request is answered with status 500 and
    ["Failed to add message to thread"].  By then the original message has
    been inserted as a ["user"] row of the resolved conversation: that
    insert is the request issued just before the append, its row is the
    only message row the request adds, and the final store is the store
    as that insert left it. *)
Theorem append_failure_keeps_user_message E cfg req st t st1 :
  (method req =? "OPTIONS") = false ->
  open_turn E cfg req st = (Return t, st1) ->
  post_messages E (threadId t)
    (cfg_thread_content cfg (turn_message t) (turn_userContext t)) = NotOk ->
  serve E cfg req st
  = (error_response "Failed to add message to thread",
     log (EvAddMessage (threadId t)
            (cfg_thread_content cfg (turn_message t) (turn_userContext t)))
         st1)
  /\ original_message req (turn_message t)
  /\ (exists row,
        messages (store st1) = (messages (store st) ++ [row])%list
        /\ role row = user
        /\ content row = turn_message t
        /\ conversation_id row = dbConversationId t)
  /\ (exists evs,
        trace st1
        = (trace st ++ evs
             ++ [EvInsertMessage (dbConversationId t) user (turn_message t)])%list
        /\ Forall (opening req) evs).
Proof.
  intros Hmeth Ho Hp.
  destruct (open_turn_inv _ _ _ _ _ _ Ho)
    as [h [b [st0 [_ [_ [_ [_ [Hj [Hmsg [Hctx [_ [Hr [_ Hst1]]]]]]]]]]]]].
  destruct (resolve_conversation_effects E cfg req (turn_user t)
              (conversationId b) (log (EvGetUser h) st))
    as [Hm0 [evs [Ht0 Hf0]]].
  rewrite Hr in Hm0, Ht0. cbn [snd log store trace] in Hm0, Ht0.
  repeat split.
  - rewrite (serve_post _ _ _ _ Hmeth), handler_try_split.
    rewrite (bind_ok _ _ _ _ _ Ho).
    unfold close_turn, append_turn, add_message.
    unfold bind, emit, check, throw. cbn. now rewrite Hp.
  - now exists b.
  - exists (message_row E st0 (dbConversationId t) user (turn_message t)).
    rewrite Hst1, message_inserted_messages, Hm0. now repeat split.
  - exists (EvGetUser h :: evs).
    rewrite Hst1. cbn [message_inserted set_store log trace].
    rewrite Ht0, <- !app_assoc. split; [reflexivity|].
    constructor; [exact I | exact Hf0].
Qed.

Lemma append_failure_keeps_user_message_witness :
  let E := demo_env "queued" (fun _ => Ok "completed") NotOk in
  let r := serve E excursion_creator_config (demo_request None) demo_state in
  fst r = error_response "Failed to add message to thread"
  /\ map (fun m => (conversation_id m, role m, content m))
         (messages (store (snd r)))
     = [ ("c-bob", user, "hello"); ("iii", user, "Plan a beach day") ].
Proof.
  intros E r. subst r.
  epose proof (append_failure_keeps_user_message E excursion_creator_config
                 (demo_request None) demo_state _ _ eq_refl eq_refl eq_refl)
    as [H _].
  rewrite H. split; reflexivity.
Defined.

(** C7. An authenticated request whose [message] is missing or empty is
    answered with status 500 and ["Message is required"]; the only request
    issued is the lookup of the caller, and the store is left as it
    was. *)
Theorem empty_message_rejected E cfg req st h uid b :
  (method req =? "OPTIONS") = false ->
  authorization req = Some h ->
  truthy h = true ->
  createClient_error E = None ->
  auth_getUser E h = Some uid ->
  json req = Parsed b ->
  truthy_opt (message b) = false ->
  serve E cfg req st
  = (error_response "Message is required", log (EvGetUser h) st)
  /\ store (snd (serve E cfg req st)) = store st
  /\ trace (snd (serve E cfg req st)) = (trace st ++ [EvGetUser h])%list.
Proof.
  intros Hmeth Hh Hth Hc Hu Hj Hm.
  assert (Hs : serve E cfg req st
               = (error_response "Message is required", log (EvGetUser h) st)).
  { rewrite (serve_post _ _ _ _ Hmeth).
    unfold handler_try, open_turn, authenticate, parse_body.
    unfold bind, emit, throw, ret.
    rewrite Hh. cbn. rewrite Hth, Hc. cbn. rewrite Hu, Hj, Hm. reflexivity. }
  rewrite Hs. now repeat split.
Qed.

Lemma empty_message_rejected_witness :
  let req := {| method := "POST"; authorization := Some "Bearer alice";
                json := Parsed {| message := Some ""; conversationId := None;
                                  userContext := None |} |} in
  let r := serve (demo_env "queued" (fun _ => NotOk) (Ok tt))
                 health_coach_config req demo_state in
  fst r = error_response "Message is required"
  /\ store (snd r) = demo_store.
Proof.
  intros req r. subst r.
  epose proof (empty_message_rejected
                 (demo_env "queued" (fun _ => NotOk) (Ok tt))
                 health_coach_config req demo_state "Bearer alice" "alice" _
                 eq_refl eq_refl eq_refl eq_refl eq_refl eq_refl eq_refl)
    as [H [Hs _]].
  rewrite Hs, H. split; reflexivity.
Defined.

(** C6. Whatever the [try] block throws (an [Error] raised by the handler,
    or an error object passed on from the store), the request is answered
    with status 500 and the body [{ error: <message> }]; and a request is
    only ever answered with status 200 or, with such a body, 500. *)
Theorem failures_answered_500 E cfg req st :
  (forall e st',
     (method req =? "OPTIONS") = false ->
     handler_try E cfg req st = (Throw e, st') ->
     serve E cfg req st = (error_response (error_message e), st'))
  /\ (status (fst (serve E cfg req st)) = 200
      \/ exists m, fst (serve E cfg req st) = error_response m).
Proof.
  split.
  - intros e st' Hm Ht. now rewrite (serve_post _ _ _ _ Hm), Ht.
  - unfold serve. destruct (method req =? "OPTIONS"); [now left|].
    destruct (handler_try E cfg req st) as [[d|e] st'];
      [now left | right; now eexists].
Qed.

Lemma failures_answered_500_witness :
  let req := {| method := "POST"; authorization := None;
                json := Malformed "Unexpected end of JSON input" |} in
  serve (demo_env "queued" (fun _ => NotOk) (Ok tt)) health_coach_config req
        demo_state
  = (error_response "No authorization header", demo_state).
Proof.
  intros req.
  exact (proj1 (failures_answered_500
                  (demo_env "queued" (fun _ => NotOk) (Ok tt))
                  health_coach_config req demo_state)
           (JsError "No authorization header") demo_state eq_refl eq_refl).
Defined.

(** ** Conversation ids that resolve to nothing *)

Lemma not_owned_filter cid uid cs :
  (forall c, In c cs -> id c = cid -> user_id c <> uid) ->
  filter (fun c => (id c =? cid) && (user_id c =? uid)) cs = [].
Proof.
  induction cs as [|c cs IH]; intros H; [reflexivity|].
  cbn [filter].
  destruct (id c =? cid) eqn:Hi; cbn [andb].
  - apply String.eqb_eq in Hi.
    destruct (user_id c =? uid) eqn:Hu.
    + apply String.eqb_eq in Hu. exfalso. exact (H c (or_introl eq_refl) Hi Hu).
    + apply IH. intros c' Hc'. apply H. now right.
  - apply IH. intros c' Hc'. apply H. now right.
Qed.

Lemma resolve_unknown E cfg uid cid st :
  truthy cid = true ->
  select_conversation_error E = None ->
  (forall c, In c (conversations (store st)) -> id c = cid ->
             user_id c <> uid) ->
  resolve_conversation E cfg uid (Some cid) st
  = create_conversation E cfg uid (log (EvSelectConversation cid uid) st).
Proof.
  intros Hc He Hn.
  unfold resolve_conversation, select_conversation.
  cbn [truthy_opt or_empty]. rewrite Hc.
  unfold bind at 1 2. unfold emit. rewrite He.
  cbn [log store]. now rewrite (not_owned_filter _ _ _ Hn).
Qed.

Lemma create_conversation_ok E cfg uid thread st :
  post_threads E = Ok thread ->
  insert_conversation_error E = None ->
  create_conversation E cfg uid st
  = (Return (thread, gen_id E (store st)),
     conversation_inserted E cfg uid thread (log EvCreateThread st)).
Proof.
  intros Hp Hi.
  unfold create_conversation, create_thread, insert_conversation.
  unfold bind, emit, ret. rewrite Hp. cbn. now rewrite Hi.
Qed.

Lemma create_conversation_trace E cfg uid st :
  exists evs,
    trace (snd (create_conversation E cfg uid st))
    = (trace st ++ EvCreateThread :: evs)%list.
Proof.
  unfold create_conversation, create_thread, insert_conversation.
  run_handler; cbn [trace log set_store];
    repeat rewrite <- app_assoc; eexists; reflexivity.
Qed.

Lemma open_turn_reaches E cfg req st h uid b msg :
  authorization req = Some h ->
  truthy h = true ->
  createClient_error E = None ->
  auth_getUser E h = Some uid ->
  json req = Parsed b ->
  message b = Some msg ->
  truthy msg = true ->
  truthy_opt (env_get E "OPENAI_API_KEY") = true ->
  open_turn E cfg req st
  = (tc <- resolve_conversation E cfg uid (conversationId b) ;;
     insert_message E (snd tc) user msg ;;
     ret {| turn_user := uid; turn_message := msg;
            turn_userContext := userContext b;
            threadId := fst tc; dbConversationId := snd tc |})
      (log (EvGetUser h) st).
Proof.
  intros Hh Hth Hc Hu Hj Hm Htm Hk.
  unfold open_turn, authenticate, parse_body, get_api_key.
  unfold bind at 1 2 3. unfold emit, throw, ret.
  rewrite Hh. cbn [truthy_opt or_empty]. rewrite Hth, Hc. cbn [negb].
  unfold bind at 1. rewrite Hu, Hj, Hm. cbn [truthy_opt or_empty].
  rewrite Htm, Hk. cbn [negb]. now rewrite Hm.
Qed.

Lemma insert_message_outcome E cid r text st :
  insert_message E cid r text st
  = match insert_message_error E r with
    | Some m => (Throw (PostgrestError m), log (EvInsertMessage cid r text) st)
    | None => (Return tt, message_inserted E cid r text st)
    end.
Proof.
  unfold insert_message, bind, emit.
  destruct (insert_message_error E r); reflexivity.
Qed.

Lemma handler_try_unknown E cfg req st h uid b cid msg :
  authorization req = Some h ->
  truthy h = true ->
  createClient_error E = None ->
  auth_getUser E h = Some uid ->
  json req = Parsed b ->
  message b = Some msg ->
  truthy msg = true ->
  truthy_opt (env_get E "OPENAI_API_KEY") = true ->
  conversationId b = Some cid ->
  truthy cid = true ->
  select_conversation_error E = None ->
  (forall c, In c (conversations (store st)) -> id c = cid ->
             user_id c <> uid) ->
  handler_try E cfg req st
  = (tc <- create_conversation E cfg uid ;;
     _ <- insert_message E (snd tc) user msg ;;
     close_turn E cfg {| turn_user := uid; turn_message := msg;
                         turn_userContext := userContext b;
                         threadId := fst tc; dbConversationId := snd tc |})
      (log (EvSelectConversation cid uid) (log (EvGetUser h) st)).
Proof.
  intros Hh Hth Hc Hu Hj Hm Htm Hk Hcid Htc Hse Hn.
  rewrite handler_try_split. unfold bind at 1.
  rewrite (open_turn_reaches _ _ _ _ _ _ _ _ Hh Hth Hc Hu Hj Hm Htm Hk).
  rewrite Hcid. unfold bind, ret.
  rewrite (resolve_unknown E cfg uid cid (log (EvGetUser h) st) Htc Hse Hn).
  destruct (create_conversation E cfg uid _) as [[tc|e] s1]; [|reflexivity].
  destruct (insert_message E (snd tc) user msg s1) as [[[]|e] s2];
    reflexivity.
Qed.

(** C5. A request that reaches the resolution of its conversation with an
    id whose lookup (lines 68-73) is answered without an error and finds no
    conversation owned by the caller is handled on the create-new path:
    after the lookup a new thread is requested from the remote service.
    When the thread and the conversation row are created,
    the store has gained exactly one conversation, owned by the caller and
    bound to the new thread, the other rows keeping id, owner, type and
    thread; every later request of the turn is about the new thread and
    the new conversation, and a successful answer carries their ids. *)
Theorem unknown_conversation_creates_new E cfg req st h uid b cid msg :
  (method req =? "OPTIONS") = false ->
  authorization req = Some h ->
  truthy h = true ->
  createClient_error E = None ->
  auth_getUser E h = Some uid ->
  json req = Parsed b ->
  message b = Some msg ->
  truthy msg = true ->
  truthy_opt (env_get E "OPENAI_API_KEY") = true ->
  conversationId b = Some cid ->
  truthy cid = true ->
  select_conversation_error E = None ->
  (forall c, In c (conversations (store st)) -> id c = cid ->
             user_id c <> uid) ->
  let st' := snd (serve E cfg req st) in
  resolve_conversation E cfg uid (Some cid) (log (EvGetUser h) st)
  = create_conversation E cfg uid
      (log (EvSelectConversation cid uid) (log (EvGetUser h) st))
  /\ (exists evs,
        trace st'
        = (trace st ++ EvGetUser h :: EvSelectConversation cid uid
             :: EvCreateThread :: evs)%list)
  /\ (forall thread,
        post_threads E = Ok thread ->
        insert_conversation_error E = None ->
        let t := {| turn_user := uid; turn_message := msg;
                    turn_userContext := userContext b;
                    threadId := thread;
                    dbConversationId := gen_id E (store st) |} in
        map conversation_key (conversations (store st'))
        = (map conversation_key (conversations (store st))
             ++ [(gen_id E (store st), uid, cfg_assistant_type cfg, thread)])%list
        /\ (exists evs,
              trace st'
              = (trace st
                   ++ [EvGetUser h; EvSelectConversation cid uid;
                       EvCreateThread;
                       EvInsertConversation uid (cfg_assistant_type cfg) thread;
                       EvInsertMessage (gen_id E (store st)) user msg]
                   ++ evs)%list
              /\ Forall (about cfg t) evs)
        /\ (forall r, body (fst (serve E cfg req st)) = BodyChat r ->
                      resp_threadId r = thread
                      /\ resp_conversationId r = gen_id E (store st))).
Proof.
  intros Hmeth Hh Hth Hc Hu Hj Hm Htm Hk Hcid Htc Hse Hn st'. subst st'.
  rewrite (serve_post _ _ _ _ Hmeth), respond_snd.
  rewrite (handler_try_unknown _ _ _ _ _ _ _ _ _
             Hh Hth Hc Hu Hj Hm Htm Hk Hcid Htc Hse Hn).
  split; [now apply resolve_unknown|]. split.
  - destruct (create_conversation_trace E cfg uid
                (log (EvSelectConversation cid uid) (log (EvGetUser h) st)))
      as [evs Hevs].
    unfold bind at 1.
    destruct (create_conversation E cfg uid _) as [[tc|e] s1];
      cbn [snd] in Hevs.
    + unfold bind at 1. rewrite insert_message_outcome.
      destruct (insert_message_error E user) as [m|]; cbn [snd].
      * cbn [log trace]. rewrite Hevs. cbn [log trace].
        rewrite <- !app_assoc. now eexists.
      * destruct (close_turn_effects E cfg
                    {| turn_user := uid; turn_message := msg;
                       turn_userContext := userContext b;
                       threadId := fst tc; dbConversationId := snd tc |}
                    (message_inserted E (snd tc) user msg s1))
          as [[evs2 [new2 [Ht2 _]]] _].
        rewrite Ht2. cbn [message_inserted set_store log trace].
        rewrite Hevs. cbn [log trace]. rewrite <- !app_assoc. now eexists.
    + cbn [snd]. rewrite Hevs. cbn [log trace].
      rewrite <- !app_assoc. now eexists.
  - intros thread Hp Hi t.
    rewrite (bind_ok _ _ _ _ _ (create_conversation_ok E cfg uid thread _ Hp Hi)).
    cbn [log store fst snd]. unfold bind at 1 2 3. rewrite insert_message_outcome.
    destruct (insert_message_error E user) as [m|]; cbn [fst snd].
    + repeat split.
      * cbn. now rewrite map_app.
      * exists []. split; [|constructor].
        cbn [conversation_inserted set_store log trace].
        now rewrite <- !app_assoc.
      * discriminate.
      * discriminate.
    + destruct (close_turn_effects E cfg t
                  (message_inserted E (gen_id E (store st)) user msg
                     (conversation_inserted E cfg uid thread
                        (log EvCreateThread
                           (log (EvSelectConversation cid uid)
                              (log (EvGetUser h) st))))))
        as [[evs2 [new2 [Ht2 [Fe2 [_ [_ Hc2]]]]]] Hd].
      fold t. repeat split.
      * rewrite Hc2. cbn. now rewrite touch_key, map_app.
      * exists evs2. split; [|exact Fe2]. rewrite Ht2.
        cbn [message_inserted conversation_inserted set_store log trace].
        now rewrite <- !app_assoc.
      * destruct (close_turn E cfg t _) as [[d|e] s3]; cbn in H;
          [|discriminate].
        inversion H; subst r. now apply (Hd d).
      * destruct (close_turn E cfg t _) as [[d|e] s3]; cbn in H;
          [|discriminate].
        inversion H; subst r. now apply (Hd d).
Qed.

Lemma unknown_conversation_creates_new_witness :
  let E := demo_env "completed" (fun _ => NotOk) (Ok tt) in
  let r := serve E health_coach_config (demo_request (Some "c-bob"))
                 demo_state in
  map conversation_key (conversations (store (snd r)))
  = [ ("c-bob", "bob", health_coach, "thread_bob");
      ("iii", "alice", health_coach, "thread_1") ]
  /\ forall d, body (fst r) = BodyChat d ->
               resp_threadId d = "thread_1" /\ resp_conversationId d = "iii".
Proof.
  intros E r. subst r.
  assert (Hn : forall c, In c (conversations (store demo_state)) ->
                         id c = "c-bob" -> user_id c <> "alice").
  { intros c [Hc|[]] _. subst c. discriminate. }
  epose proof (unknown_conversation_creates_new E health_coach_config
                 (demo_request (Some "c-bob")) demo_state
                 "Bearer alice" "alice" _ "c-bob" "Plan a beach day"
                 eq_refl eq_refl eq_refl eq_refl eq_refl eq_refl eq_refl
                 eq_refl eq_refl eq_refl eq_refl eq_refl Hn) as [_ [_ H]].
  destruct (H "thread_1" eq_refl eq_refl) as [Hk [_ Hd]].
  split; [exact Hk | exact Hd].
Defined.

(** C5, the case left out above: the lookup itself may be answered with an
    error, as it is for an id that is not a uuid and therefore names no
    conversation.  Line 75 rethrows the error: the request is answered
    with status 500, no thread is requested and no conversation is
    created. *)
Lemma failed_lookup_creates_nothing :
  let E :=
    {| env_get := fun k =>
         if k =? "OPENAI_API_KEY" then Some "sk-demo"
         else if k =? "HEALTH_COACH_ASSISTANT_ID" then Some "asst_coach"
         else None;
       createClient_error := None;
       auth_getUser := fun h =>
         if h =? "Bearer alice" then Some "alice" else None;
       select_conversation_error :=
         Some "invalid input syntax for type uuid";
       insert_conversation_error := None;
       insert_message_error := fun _ => None;
       gen_id := fun _ => "iii";
       post_threads := Ok "thread_1";
       post_messages := fun _ _ => Ok tt;
       post_runs := fun _ _ =>
         Ok {| run_id := "run_1"; run_status := "completed" |};
       get_run := fun _ _ _ => NotOk;
       get_messages := fun _ =>
         Ok [ {| tm_role := "assistant";
                 tm_content := [ {| part_type := "text";
                                    text_value := "Go outside" |} ] |} ] |} in
  let req := demo_request (Some "not-a-uuid") in
  let r := serve E health_coach_config req demo_state in
  accepted E req "Bearer alice" "alice"
    {| message := Some "Plan a beach day";
       conversationId := Some "not-a-uuid";
       userContext := Some demo_context |}
    "Plan a beach day"
  /\ (forall c, In c (conversations (store demo_state)) ->
                id c <> "not-a-uuid")
  /\ fst r = error_response "An unknown error occurred"
  /\ store (snd r) = store demo_state
  /\ trace (snd r)
     = [EvGetUser "Bearer alice"; EvSelectConversation "not-a-uuid" "alice"]
  /\ ~ In EvCreateThread (trace (snd r))
  /\ ~ (exists evs,
          trace (snd r)
          = (trace demo_state
               ++ EvGetUser "Bearer alice"
               :: EvSelectConversation "not-a-uuid" "alice"
               :: EvCreateThread :: evs)%list).
Proof.
  intros E req r.
  assert (Ht : trace (snd r)
               = [EvGetUser "Bearer alice";
                  EvSelectConversation "not-a-uuid" "alice"])
    by (vm_compute; reflexivity).
  split; [unfold accepted; repeat split; vm_compute; reflexivity|].
  split; [intros c [Hc|[]]; subst c; discriminate|].
  split; [vm_compute; reflexivity|].
  split; [vm_compute; reflexivity|].
  split; [exact Ht|].
  split.
  - rewrite Ht. intros [H|[H|[]]]; discriminate.
  - intros [evs H]. rewrite Ht in H. cbn in H. discriminate.
Qed.

(** ** The client SDK *)

Section Sorting.

Context {R : Type}.
Variable le : R -> R -> bool.
Hypothesis le_total : forall a b, le a b = false -> le b a = true.

Lemma insert_by_perm x l : Permutation (insert_by le x l) (x :: l).
Proof.
  induction l as [|y l IH]; cbn [insert_by]; [reflexivity|].
  destruct (le x y); [reflexivity|].
  rewrite IH. apply perm_swap.
Qed.

Lemma sort_by_perm l : Permutation (sort_by le l) l.
Proof.
  induction l as [|x l IH]; cbn [sort_by]; [reflexivity|].
  rewrite insert_by_perm. now constructor.
Qed.

Lemma insert_by_hd x y l :
  le y x = true ->
  HdRel (fun a b => le a b = true) y l ->
  HdRel (fun a b => le a b = true) y (insert_by le x l).
Proof.
  intros Hyx Hl. destruct l as [|z l]; cbn [insert_by].
  - now constructor.
  - destruct (le x z); constructor; [exact Hyx | now inversion Hl].
Qed.

Lemma insert_by_sorted x l :
  Sorted (fun a b => le a b = true) l ->
  Sorted (fun a b => le a b = true) (insert_by le x l).
Proof.
  induction l as [|y l IH]; intros Hs; cbn [insert_by].
  - repeat constructor.
  - destruct (le x y) eqn:Hxy.
    + constructor; [exact Hs | now constructor].
    + inversion Hs; subst. constructor; [now apply IH|].
      apply insert_by_hd; [now apply le_total | assumption].
Qed.

Lemma sort_by_sorted l : Sorted (fun a b => le a b = true) (sort_by le l).
Proof.
  induction l as [|x l IH]; cbn [sort_by]; [constructor|].
  now apply insert_by_sorted.
Qed.

End Sorting.

Lemma filter_filter_and {R} (f g : R -> bool) l :
  filter f (filter g l) = filter (fun r => g r && f r) l.
Proof.
  induction l as [|x l IH]; [reflexivity|]. cbn [filter].
  destruct (g x); cbn [filter andb]; [|exact IH].
  destruct (f x); now rewrite IH.
Qed.

Lemma key_le_total {R} (key : R -> Z) asc a b :
  key_le key asc a b = false -> key_le key asc b a = true.
Proof.
  unfold key_le. destruct asc; intros H;
    apply Z.leb_gt in H; apply Z.leb_le; lia.
Qed.

Lemma key_le_trans {R} (key : R -> Z) asc :
  Relations_1.Transitive (fun a b => key_le key asc a b = true).
Proof.
  unfold key_le. intros a b c. destruct asc; intros H1 H2;
    apply Z.leb_le in H1, H2; apply Z.leb_le; lia.
Qed.

(** The rows an ordered query is answered with are the filtered rows, in
    the order of the sort key. *)
Lemma answer_ordered {R} (rows : list R) (q : Query R) key asc :
  ordering q = Some (key, asc) ->
  StronglySorted (fun a b => key_le key asc a b = true) (answer rows q)
  /\ Permutation (answer rows q)
       (filter (fun r => forallb (fun p => p r) (filters q)) rows).
Proof.
  intros Ho. unfold answer. rewrite Ho. split.
  - apply Sorted_StronglySorted; [apply key_le_trans|].
    apply sort_by_sorted. apply key_le_total.
  - apply sort_by_perm.
Qed.

Lemma StronglySorted_impl {R} (P Q : R -> R -> Prop) l :
  (forall a b, P a b -> Q a b) -> StronglySorted P l -> StronglySorted Q l.
Proof.
  intros HPQ Hs. induction Hs as [|a l Hs IH Hf]; constructor.
  - exact IH.
  - eapply Forall_impl; [|exact Hf]. intros b. apply HPQ.
Qed.

(** C8. When the store answers, [getConversations] returns the
    conversations visible to the caller, those of the given assistant
    type when one is given, each exactly once and latest [updated_at]
    first; [getMessages] returns the visible messages of the given
    conversation, each exactly once and earliest [created_at] first.  They
    throw only when the store rejects the query. *)
Theorem sdk_lists_are_ordered caller query_error s :
  (forall assistantType,
     match AssistantsAPI.getConversations caller query_error s assistantType with
     | Return data =>
         query_error = None
         /\ StronglySorted (fun a b => (updated_at b <= updated_at a)%Z) data
         /\ Permutation data
              (filter (fun c =>
                         visible_conversation caller c
                         && match assistantType with
                            | Some ty => AssistantType_eqb (assistant_type c) ty
                            | None => true
                            end)
                      (conversations s))
     | Throw e =>
         exists m, query_error = Some m
                   /\ e = JsError ("Failed to fetch conversations: " ++ m)
     end)
  /\ (forall conversationId,
        match AssistantsAPI.getMessages caller query_error s conversationId with
        | Return data =>
            query_error = None
            /\ StronglySorted
                 (fun a b => (msg_created_at a <= msg_created_at b)%Z) data
            /\ Permutation data
                 (filter (fun m =>
                            visible_message s caller m
                            && (conversation_id m =? conversationId))
                         (messages s))
        | Throw e =>
            exists m, query_error = Some m
                      /\ e = JsError ("Failed to fetch messages: " ++ m)
        end).
Proof.
  split.
  - intros assistantType.
    unfold AssistantsAPI.getConversations, AssistantsAPI.await.
    destruct query_error as [m|]; [now exists m|].
    cbn [AssistantsAPI.or_empty_array]. split; [reflexivity|].
    destruct assistantType as [ty|].
    + destruct (answer_ordered
                  (filter (visible_conversation caller) (conversations s))
                  (eq_filter (fun c => AssistantType_eqb (assistant_type c) ty)
                     (order updated_at false select_all))
                  updated_at false eq_refl) as [Hs Hp].
      split.
      * eapply StronglySorted_impl; [|exact Hs].
        intros a b H. now apply Z.leb_le in H.
      * rewrite Hp, filter_filter_and. cbn [eq_filter order select_all filters app forallb].
        erewrite filter_ext; [reflexivity|].
        intros c. cbn. now rewrite andb_true_r.
    + destruct (answer_ordered
                  (filter (visible_conversation caller) (conversations s))
                  (order updated_at false select_all)
                  updated_at false eq_refl) as [Hs Hp].
      split.
      * eapply StronglySorted_impl; [|exact Hs].
        intros a b H. now apply Z.leb_le in H.
      * rewrite Hp, filter_filter_and.
        erewrite filter_ext; [reflexivity|].
        intros c. cbn. reflexivity.
  - intros conversationId.
    unfold AssistantsAPI.getMessages, AssistantsAPI.await.
    destruct query_error as [m|]; [now exists m|].
    cbn [AssistantsAPI.or_empty_array]. split; [reflexivity|].
    destruct (answer_ordered
                (filter (visible_message s caller) (messages s))
                (order msg_created_at true
                   (eq_filter (fun m => conversation_id m =? conversationId)
                      select_all))
                msg_created_at true eq_refl) as [Hs Hp].
    split.
    + eapply StronglySorted_impl; [|exact Hs].
      intros a b H. now apply Z.leb_le in H.
    + rewrite Hp, filter_filter_and.
      erewrite filter_ext; [reflexivity|].
      intros c. cbn. now rewrite andb_true_r.
Qed.

(** Alice's two conversations come back latest first; Bob's is not
    visible to her. *)
Example alice_conversations :
  let row i ty u :=
    {| id := i; user_id := "alice"; assistant_type := ty; thread_id := "t";
       created_at := 1; updated_at := u |} in
  let s := {| conversations :=
                conversations demo_store
                ++ [row "c1" health_coach 10%Z; row "c2" excursion_creator 30%Z;
                    row "c3" health_coach 20%Z];
              messages := [] |} in
  AssistantsAPI.getConversations "alice" None s None
  = Return [row "c2" excursion_creator 30%Z; row "c3" health_coach 20%Z;
            row "c1" health_coach 10%Z]
  /\ AssistantsAPI.getConversations "alice" None s (Some health_coach)
     = Return [row "c3" health_coach 20%Z; row "c1" health_coach 10%Z].
Proof. split; reflexivity. Qed.

(** * Further properties *)

(** ** Outcomes of the phases of a turn *)

Lemma append_turn_outcome E cfg t st :
  append_turn E cfg t st
  = (match post_messages E (threadId t)
             (cfg_thread_content cfg (turn_message t) (turn_userContext t)) with
     | Ok _ => Return tt
     | NotOk => Throw (JsError "Failed to add message to thread")
     | Rejected m => Throw (JsError m)
     end,
     log (EvAddMessage (threadId t)
            (cfg_thread_content cfg (turn_message t) (turn_userContext t))) st).
Proof.
  unfold append_turn, add_message. run_handler; try reflexivity.
  now destruct a.
Qed.

Lemma start_run_frame E cfg t st :
  store (snd (start_run E cfg t st)) = store st
  /\ now (snd (start_run E cfg t st)) = now st.
Proof. unfold start_run, create_run. run_handler; now split. Qed.

Lemma reply_turn_cases E t st :
  match reply_turn E t st with
  | (Return d, st') =>
      st' = message_inserted E (dbConversationId t) assistant (response d)
              (log (EvListMessages (threadId t)) st)
      /\ resp_conversationId d = dbConversationId t
      /\ resp_threadId d = threadId t
  | (Throw e, st') => store st' = store st /\ now st' = now st
  end.
Proof.
  unfold reply_turn, get_assistant_response, list_messages, insert_message.
  run_handler; repeat split.
Qed.

(** A resolved turn either stores the reply it returns, as the last thing
    it does, or leaves the store as it found it. *)
Lemma close_turn_cases E cfg t st :
  match close_turn E cfg t st with
  | (Return d, st') =>
      exists st2,
        st' = message_inserted E (dbConversationId t) assistant (response d) st2
        /\ store st2 = store st
        /\ (now st <= now st2)%Z
        /\ resp_conversationId d = dbConversationId t
        /\ resp_threadId d = threadId t
  | (Throw e, st') => store st' = store st
  end.
Proof.
  unfold close_turn. unfold bind. rewrite append_turn_outcome.
  destruct (post_messages E (threadId t) _) as [m| |[]]; try reflexivity.
  destruct (start_run_frame E cfg t
              (log (EvAddMessage (threadId t)
                      (cfg_thread_content cfg (turn_message t)
                         (turn_userContext t))) st)) as [Hs Hn].
  destruct (start_run E cfg t _) as [[run|e] s2]; cbn [snd] in Hs, Hn;
    [|exact Hs].
  destruct (poll_for_completion_state E t run s2) as [n Hp].
  destruct (poll_for_completion E (threadId t) run s2) as [[[]|e] s3];
    cbn [snd] in Hp; subst s3; [|exact Hs].
  pose proof (reply_turn_cases E t (polled (threadId t) (run_id run) n s2))
    as Hr.
  destruct (reply_turn E t _) as [[d|e] s4].
  - destruct Hr as [H1 [H2 H3]]. eexists. split; [exact H1|].
    cbn [log polled store now]. rewrite Hn. cbn [log now].
    repeat split; auto. lia.
  - destruct Hr as [H1 _]. rewrite H1. exact Hs.
Qed.

Lemma filter_one {A} (f : A -> bool) l c :
  filter f l = [c] -> In c l /\ f c = true.
Proof.
  intros H. apply filter_In. rewrite H. now left.
Qed.

(** The conversation a turn resolves to is a row the caller owns: one that
    was in the store, bound to the thread that is returned, or the row
    just inserted for the thread just created. *)
Lemma resolve_conversation_cases E cfg uid cid st :
  match resolve_conversation E cfg uid cid st with
  | (Return (th, c), st0) =>
      now st0 = now st
      /\ ((exists row,
             In row (conversations (store st))
             /\ id row = c /\ user_id row = uid /\ thread_id row = th
             /\ cid = Some c /\ store st0 = store st)
          \/ (post_threads E = Ok th
              /\ c = gen_id E (store st)
              /\ store st0
                 = {| conversations :=
                        conversations (store st)
                        ++ [conversation_row E cfg st uid th];
                      messages := messages (store st) |}))
  | (Throw e, st0) => store st0 = store st /\ now st0 = now st
  end.
Proof.
  unfold resolve_conversation, create_conversation, select_conversation,
    create_thread, insert_conversation.
  run_handler; try (now split).
  - split; [reflexivity|]. right. now repeat split.
  - split; [reflexivity|]. left. exists c.
    apply filter_one in Heql. destruct Heql as [Hin Hf].
    apply andb_true_iff in Hf. destruct Hf as [Hi Hu].
    apply String.eqb_eq in Hi, Hu.
    destruct cid as [x|]; [|discriminate]. cbn in Hi.
    repeat split; auto. now rewrite Hi.
  - split; [reflexivity|]. right. now repeat split.
Qed.

(** ** Requests that are turned away before the conversation is resolved *)

(** The checks of lines 31-61, in their order: the first that fails decides
    the error, and nothing but the lookup of the caller has been issued. *)
Lemma open_turn_checks E cfg req st :
  (exists h uid b msg,
     authorization req = Some h /\ truthy h = true
     /\ createClient_error E = None
     /\ auth_getUser E h = Some uid
     /\ json req = Parsed b
     /\ message b = Some msg /\ truthy msg = true
     /\ truthy_opt (env_get E "OPENAI_API_KEY") = true)
  \/ (exists e, open_turn E cfg req st = (Throw e, st))
  \/ (exists e h, authorization req = Some h
                  /\ open_turn E cfg req st = (Throw e, log (EvGetUser h) st)).
Proof.
  unfold open_turn, authenticate, parse_body, get_api_key.
  unfold bind, emit, throw, ret.
  destruct (authorization req) as [h|] eqn:Hh; cbn [truthy_opt or_empty negb];
    [|right; left; now eexists].
  destruct (truthy h) eqn:Hth; cbn [negb]; [|right; left; now eexists].
  destruct (createClient_error E) as [m|] eqn:Hc; [right; left; now eexists|].
  destruct (auth_getUser E h) as [uid|] eqn:Hu;
    [|right; right; now eexists _, h].
  destruct (json req) as [m|b] eqn:Hj; [right; right; now eexists _, h|].
  destruct (message b) as [msg|] eqn:Hm; cbn [truthy_opt negb];
    [|right; right; now eexists _, h].
  destruct (truthy msg) eqn:Htm; cbn [negb];
    [|right; right; now eexists _, h].
  destruct (truthy_opt (env_get E "OPENAI_API_KEY")) eqn:Hk; cbn [negb];
    [|right; right; now eexists _, h].
  left. exists h, uid, b, msg. now repeat split.
Qed.

(** X1. A request changes the store, polls, or issues any request beyond
    the lookup of its caller only if it is accepted: its method is not
    [OPTIONS] (line 22 is the only test of the method, so a [PUT] or a
    [GET] is served like a [POST]), its [Authorization] header names a
    user, its [message] is not empty, and the API key of the endpoint is
    configured.  Any other request whose method is not [OPTIONS] is
    answered with status 500. *)
Theorem effects_need_accepted_request E cfg req st :
  (exists h uid b msg, accepted E req h uid b msg)
  \/ (store (snd (serve E cfg req st)) = store st
      /\ polls (snd (serve E cfg req st)) = polls st
      /\ now (snd (serve E cfg req st)) = now st
      /\ (trace (snd (serve E cfg req st)) = trace st
          \/ exists h, authorization req = Some h
                       /\ trace (snd (serve E cfg req st))
                          = (trace st ++ [EvGetUser h])%list)
      /\ ((method req =? "OPTIONS") = false ->
          exists m, fst (serve E cfg req st) = error_response m)).
Proof.
  destruct (method req =? "OPTIONS") eqn:Hm.
  { right. unfold serve. rewrite Hm. cbn [fst snd].
    repeat split; auto. discriminate. }
  rewrite (serve_post _ _ _ _ Hm), handler_try_split.
  destruct (open_turn_checks E cfg req st)
    as [[h [uid [b [msg H]]]] | [[e He] | [e [h [Hh He]]]]].
  - left. exists h, uid, b, msg. unfold accepted. tauto.
  - right. rewrite (bind_throw _ _ _ _ _ He). cbn [respond fst snd].
    repeat split; auto. intros _. now eexists.
  - right. rewrite (bind_throw _ _ _ _ _ He). cbn [respond fst snd log].
    repeat split; auto.
    + right. now exists h.
    + intros _. now eexists.
Qed.

(** X2. A POST without [Authorization] header, or with an empty one, is
    answered with status 500 and ["No authorization header"] and nothing
    at all is issued; one whose header names no user is answered with
    ["Unauthorized"] after the lookup, and nothing else is issued. *)
Theorem unauthenticated_rejected E cfg req st :
  (method req =? "OPTIONS") = false ->
  (truthy_opt (authorization req) = false ->
   serve E cfg req st = (error_response "No authorization header", st))
  /\ (forall h,
        authorization req = Some h ->
        truthy h = true ->
        createClient_error E = None ->
        auth_getUser E h = None ->
        serve E cfg req st
        = (error_response "Unauthorized", log (EvGetUser h) st)).
Proof.
  intros Hm. rewrite (serve_post _ _ _ _ Hm).
  unfold handler_try, open_turn, authenticate. unfold bind, emit, throw.
  split.
  - intros Ha. now rewrite Ha.
  - intros h Hh Hth Hc Hu. rewrite Hh. cbn [truthy_opt or_empty].
    now rewrite Hth, Hc, Hu.
Qed.

Lemma unauthenticated_rejected_witness :
  let E := demo_env "queued" (fun _ => NotOk) (Ok tt) in
  let anonymous := {| method := "POST"; authorization := Some "";
                      json := json (demo_request None) |} in
  let mallory := {| method := "POST"; authorization := Some "Bearer mallory";
                    json := json (demo_request None) |} in
  serve E health_coach_config anonymous demo_state
  = (error_response "No authorization header", demo_state)
  /\ serve E health_coach_config mallory demo_state
     = (error_response "Unauthorized",
        log (EvGetUser "Bearer mallory") demo_state).
Proof.
  intros E anonymous mallory. split.
  - exact (proj1 (unauthenticated_rejected E health_coach_config anonymous
                    demo_state eq_refl) eq_refl).
  - exact (proj2 (unauthenticated_rejected E health_coach_config mallory
                    demo_state eq_refl)
             "Bearer mallory" eq_refl eq_refl eq_refl eq_refl).
Defined.

(** X3. An authenticated POST with a non-empty [message] on an endpoint
    whose [OPENAI_API_KEY] is unset or empty is answered with status 500
    and ["OpenAI API key not configured"]; the store is untouched and the
    remote service is not called. *)
Theorem missing_api_key_rejected E cfg req st h uid b :
  (method req =? "OPTIONS") = false ->
  authorization req = Some h ->
  truthy h = true ->
  createClient_error E = None ->
  auth_getUser E h = Some uid ->
  json req = Parsed b ->
  truthy_opt (message b) = true ->
  truthy_opt (env_get E "OPENAI_API_KEY") = false ->
  serve E cfg req st
  = (error_response "OpenAI API key not configured", log (EvGetUser h) st).
Proof.
  intros Hm Hh Hth Hc Hu Hj Hmsg Hk. rewrite (serve_post _ _ _ _ Hm).
  unfold handler_try, open_turn, authenticate, parse_body, get_api_key.
  unfold bind, emit, throw, ret. rewrite Hh. cbn [truthy_opt or_empty].
  rewrite Hth, Hc. cbn [negb]. now rewrite Hu, Hj, Hmsg, Hk.
Qed.

Lemma missing_api_key_rejected_witness :
  let E := {| env_get := fun _ => None;
              createClient_error := None;
              auth_getUser := fun _ => Some "alice";
              select_conversation_error := None;
              insert_conversation_error := None;
              insert_message_error := fun _ => None;
              gen_id := fun _ => "x";
              post_threads := NotOk;
              post_messages := fun _ _ => NotOk;
              post_runs := fun _ _ => NotOk;
              get_run := fun _ _ _ => NotOk;
              get_messages := fun _ => NotOk |} in
  serve E excursion_creator_config (demo_request None) demo_state
  = (error_response "OpenAI API key not configured",
     log (EvGetUser "Bearer alice") demo_state).
Proof.
  intros E.
  exact (missing_api_key_rejected E excursion_creator_config
           (demo_request None) demo_state "Bearer alice" "alice" _
           eq_refl eq_refl eq_refl eq_refl eq_refl eq_refl eq_refl eq_refl).
Defined.

(** ** Accepted requests *)

Lemma handler_try_accepted E cfg req st h uid b msg :
  accepted E req h uid b msg ->
  handler_try E cfg req st
  = (tc <- resolve_conversation E cfg uid (conversationId b) ;;
     _ <- insert_message E (snd tc) user msg ;;
     close_turn E cfg {| turn_user := uid; turn_message := msg;
                         turn_userContext := userContext b;
                         threadId := fst tc; dbConversationId := snd tc |})
      (log (EvGetUser h) st).
Proof.
  intros [_ [Hh [Hth [Hc [Hu [Hj [Hm [Htm Hk]]]]]]]].
  rewrite handler_try_split. unfold bind at 1.
  rewrite (open_turn_reaches _ _ _ _ _ _ _ _ Hh Hth Hc Hu Hj Hm Htm Hk).
  unfold bind, ret.
  destruct (resolve_conversation E cfg uid (conversationId b) _)
    as [[tc|e] s1]; [|reflexivity].
  destruct (insert_message E (snd tc) user msg s1) as [[[]|e] s2];
    reflexivity.
Qed.

Lemma serve_accepted E cfg req st h uid b msg :
  accepted E req h uid b msg ->
  serve E cfg req st
  = respond
      ((tc <- resolve_conversation E cfg uid (conversationId b) ;;
        _ <- insert_message E (snd tc) user msg ;;
        close_turn E cfg {| turn_user := uid; turn_message := msg;
                            turn_userContext := userContext b;
                            threadId := fst tc; dbConversationId := snd tc |})
         (log (EvGetUser h) st)).
Proof.
  intros H. rewrite (serve_post _ _ _ _ (proj1 H)).
  now rewrite (handler_try_accepted _ _ _ _ _ _ _ _ H).
Qed.

Lemma respond_chat r d :
  body (fst (respond r)) = BodyChat d -> fst r = Return d.
Proof.
  destruct r as [[d'|e] s]; cbn; intros H; [|discriminate].
  now inversion H.
Qed.

(** A turn from the insert of the user's message on: the requests it
    issues are that insert and requests about the turn, the conversations
    stay, and an answer carries the ids of the turn. *)
Lemma stored_turn_effects E cfg t st :
  let r := (_ <- insert_message E (dbConversationId t) user (turn_message t) ;;
            close_turn E cfg t) st in
  map conversation_key (conversations (store (snd r)))
  = map conversation_key (conversations (store st))
  /\ (exists evs,
        trace (snd r)
        = (trace st
           ++ EvInsertMessage (dbConversationId t) user (turn_message t)
           :: evs)%list
        /\ Forall (about cfg t) evs)
  /\ (forall d, fst r = Return d ->
                resp_threadId d = threadId t
                /\ resp_conversationId d = dbConversationId t).
Proof.
  intros r. subst r. unfold bind. rewrite insert_message_outcome.
  destruct (insert_message_error E user) as [m|]; cbn [fst snd].
  - repeat split; try discriminate.
    exists []. split; [reflexivity | constructor].
  - destruct (close_turn_effects E cfg t
                (message_inserted E (dbConversationId t) user
                   (turn_message t) st))
      as [[evs [new [Ht [Fe [_ [_ Hc]]]]]] Hd].
    repeat split.
    + rewrite Hc. cbn. apply touch_key.
    + exists evs. split; [|exact Fe]. rewrite Ht.
      cbn [message_inserted set_store log trace].
      now rewrite <- app_assoc.
    + now apply Hd.
    + now apply Hd.
Qed.

Lemma owned_filter cid uid cs c :
  NoDup (map id cs) ->
  In c cs -> id c = cid -> user_id c = uid ->
  filter (fun x => (id x =? cid) && (user_id x =? uid)) cs = [c].
Proof.
  induction cs as [|x cs IH]; intros Hnd Hin Hi Hu; [destruct Hin|].
  cbn [map] in Hnd. inversion Hnd as [|? ? Hx Hnd']; subst.
  cbn [filter]. destruct Hin as [Hin|Hin].
  - subst x. rewrite !String.eqb_refl. cbn [andb]. f_equal.
    apply not_owned_filter. intros c' Hc' Hid. exfalso. apply Hx.
    rewrite <- Hid. now apply in_map.
  - assert (Hne : (id x =? id c) = false).
    { apply String.eqb_neq. intros Heq. apply Hx. rewrite Heq.
      now apply in_map. }
    rewrite Hne. cbn [andb]. now apply IH.
Qed.

(** The turn of an accepted request that names a conversation of its
    caller. *)
Lemma reuse_effects E cfg req st h uid b msg cid c :
  accepted E req h uid b msg ->
  conversationId b = Some cid ->
  truthy cid = true ->
  select_conversation_error E = None ->
  NoDup (map id (conversations (store st))) ->
  In c (conversations (store st)) ->
  id c = cid ->
  user_id c = uid ->
  let st' := snd (serve E cfg req st) in
  let t := {| turn_user := uid; turn_message := msg;
              turn_userContext := userContext b;
              threadId := thread_id c; dbConversationId := cid |} in
  map conversation_key (conversations (store st'))
  = map conversation_key (conversations (store st))
  /\ (exists evs,
        trace st'
        = (trace st
           ++ [EvGetUser h; EvSelectConversation cid uid;
               EvInsertMessage cid user msg]
           ++ evs)%list
        /\ Forall (about cfg t) evs)
  /\ (forall d, body (fst (serve E cfg req st)) = BodyChat d ->
                resp_threadId d = thread_id c
                /\ resp_conversationId d = cid).
Proof.
  intros Ha Hcid Htc Hse Hnd Hin Hi Hu st' t. subst st'.
  pose proof (stored_turn_effects E cfg t
                (log (EvSelectConversation cid uid) (log (EvGetUser h) st)))
    as He.
  subst t. cbv zeta in He. cbn [dbConversationId turn_message] in He.
  rewrite (serve_accepted _ _ _ _ _ _ _ _ Ha), respond_snd, Hcid.
  assert (Hres : resolve_conversation E cfg uid (Some cid)
                   (log (EvGetUser h) st)
                 = (Return (thread_id c, cid),
                    log (EvSelectConversation cid uid)
                      (log (EvGetUser h) st))).
  { unfold resolve_conversation, select_conversation.
    cbn [truthy_opt or_empty]. rewrite Htc.
    unfold bind, emit, ret. rewrite Hse. cbn [log store].
    rewrite (owned_filter cid uid _ c Hnd Hin Hi Hu). now rewrite Hi. }
  rewrite (bind_ok _ _ _ _ _ Hres). cbn [fst snd].
  destruct He as [Hk [[evs [Ht Fe]] Hd]].
  repeat split.
  - exact Hk.
  - exists evs. split; [|exact Fe]. rewrite Ht. cbn [log trace].
    now rewrite <- !app_assoc.
  - apply respond_chat in H. now apply (Hd d).
  - apply respond_chat in H. now apply (Hd d).
Qed.


Lemma demo_accepted first statuses append cid :
  accepted (demo_env first statuses append) (demo_request cid)
    "Bearer alice" "alice"
    {| message := Some "Plan a beach day"; conversationId := cid;
       userContext := Some demo_context |}
    "Plan a beach day".
Proof. unfold accepted. repeat split; reflexivity. Qed.


(** A turn on the create-new path, from the creation of the thread on. *)
Lemma new_conversation_effects E cfg uid msg ctx st :
  let r := (tc <- create_conversation E cfg uid ;;
            _ <- insert_message E (snd tc) user msg ;;
            close_turn E cfg {| turn_user := uid; turn_message := msg;
                                turn_userContext := ctx;
                                threadId := fst tc;
                                dbConversationId := snd tc |}) st in
  (exists evs, trace (snd r) = (trace st ++ EvCreateThread :: evs)%list)
  /\ (forall thread,
        post_threads E = Ok thread ->
        insert_conversation_error E = None ->
        let t := {| turn_user := uid; turn_message := msg;
                    turn_userContext := ctx; threadId := thread;
                    dbConversationId := gen_id E (store st) |} in
        map conversation_key (conversations (store (snd r)))
        = (map conversation_key (conversations (store st))
             ++ [(gen_id E (store st), uid, cfg_assistant_type cfg, thread)])%list
        /\ (exists evs,
              trace (snd r)
              = (trace st
                 ++ [EvCreateThread;
                     EvInsertConversation uid (cfg_assistant_type cfg) thread;
                     EvInsertMessage (gen_id E (store st)) user msg]
                 ++ evs)%list
              /\ Forall (about cfg t) evs)
        /\ (forall d, fst r = Return d ->
                      resp_threadId d = thread
                      /\ resp_conversationId d = gen_id E (store st))).
Proof.
  intros r. subst r. split.
  - destruct (create_conversation_trace E cfg uid st) as [evs Hevs].
    unfold bind at 1.
    destruct (create_conversation E cfg uid st) as [[tc|e] s1];
      cbn [snd] in Hevs; [|now exists evs].
    destruct (stored_turn_effects E cfg
                {| turn_user := uid; turn_message := msg;
                   turn_userContext := ctx; threadId := fst tc;
                   dbConversationId := snd tc |} s1)
      as [_ [[evs2 [Ht _]] _]].
    cbv zeta in Ht. cbn [dbConversationId turn_message] in Ht.
    rewrite Ht, Hevs, <- app_assoc. now eexists.
  - intros thread Hp Hi t.
    rewrite (bind_ok _ _ _ _ _ (create_conversation_ok E cfg uid thread _ Hp Hi)).
    cbn [fst snd].
    destruct (stored_turn_effects E cfg t
                (conversation_inserted E cfg uid thread (log EvCreateThread st)))
      as [Hk [[evs [Ht Fe]] Hd]].
    subst t. cbv zeta in Hk, Ht, Hd.
    cbn [dbConversationId turn_message log store] in Hk, Ht, Hd.
    repeat split.
    + rewrite Hk. cbn. now rewrite map_app.
    + exists evs. split; [|exact Fe]. rewrite Ht.
      cbn [conversation_inserted set_store log trace].
      now rewrite <- !app_assoc.
    + now apply (Hd d).
    + now apply (Hd d).
Qed.

(** X5. An accepted request without conversation id, or with an empty one,
    looks nothing up: it requests a new thread at once.  When the thread
    and the conversation row are created, the store gains exactly that
    conversation, owned by the caller, and the turn runs on the new thread
    and conversation. *)
Theorem no_conversation_id_creates_new E cfg req st h uid b msg :
  accepted E req h uid b msg ->
  truthy_opt (conversationId b) = false ->
  let st' := snd (serve E cfg req st) in
  (exists evs,
     trace st' = (trace st ++ EvGetUser h :: EvCreateThread :: evs)%list)
  /\ (forall thread,
        post_threads E = Ok thread ->
        insert_conversation_error E = None ->
        let t := {| turn_user := uid; turn_message := msg;
                    turn_userContext := userContext b; threadId := thread;
                    dbConversationId := gen_id E (store st) |} in
        map conversation_key (conversations (store st'))
        = (map conversation_key (conversations (store st))
             ++ [(gen_id E (store st), uid, cfg_assistant_type cfg, thread)])%list
        /\ (exists evs,
              trace st'
              = (trace st
                 ++ [EvGetUser h; EvCreateThread;
                     EvInsertConversation uid (cfg_assistant_type cfg) thread;
                     EvInsertMessage (gen_id E (store st)) user msg]
                 ++ evs)%list
              /\ Forall (about cfg t) evs)
        /\ (forall d, body (fst (serve E cfg req st)) = BodyChat d ->
                      resp_threadId d = thread
                      /\ resp_conversationId d = gen_id E (store st))).
Proof.
  intros Ha Hc st'. subst st'.
  rewrite (serve_accepted _ _ _ _ _ _ _ _ Ha), respond_snd.
  assert (Hres : resolve_conversation E cfg uid (conversationId b)
                 = create_conversation E cfg uid).
  { unfold resolve_conversation. now rewrite Hc. }
  rewrite Hres.
  destruct (new_conversation_effects E cfg uid msg (userContext b)
              (log (EvGetUser h) st)) as [[evs Ht] Hn].
  split.
  - exists evs. rewrite Ht. cbn [log trace]. now rewrite <- app_assoc.
  - intros thread Hp Hi t.
    destruct (Hn thread Hp Hi) as [Hk [[evs2 [Ht2 Fe]] Hd]].
    cbn [log store] in Hk, Ht2, Hd. repeat split.
    + exact Hk.
    + exists evs2. split; [|exact Fe]. rewrite Ht2. cbn [log trace].
      now rewrite <- !app_assoc.
    + apply respond_chat in H. now apply (Hd d).
    + apply respond_chat in H. now apply (Hd d).
Qed.

Lemma no_conversation_id_creates_new_witness :
  let E := demo_env "completed" (fun _ => NotOk) (Ok tt) in
  let r := serve E excursion_creator_config (demo_request (Some ""))
                 demo_state in
  map conversation_key (conversations (store (snd r)))
  = [ ("c-bob", "bob", health_coach, "thread_bob");
      ("iii", "alice", excursion_creator, "thread_1") ].
Proof.
  intros E r. subst r.
  epose proof (no_conversation_id_creates_new E excursion_creator_config
                 (demo_request (Some "")) demo_state
                 "Bearer alice" "alice" _ "Plan a beach day"
                 (demo_accepted _ _ _ _) eq_refl) as [_ H].
  destruct (H "thread_1" eq_refl eq_refl) as [Hk _]. exact Hk.
Defined.

(** ** Rows a request adds *)

Lemma open_turn_throw E cfg req st e st1 :
  open_turn E cfg req st = (Throw e, st1) ->
  messages (store st1) = messages (store st) /\ now st1 = now st.
Proof.
  unfold open_turn, authenticate, parse_body, get_api_key, insert_message.
  run_handler; intros H; inversion H; subst; clear H; try (now split).
  all: match goal with
       | Hr : resolve_conversation _ _ ?u ?c ?s = (_, _) |- _ =>
           destruct (resolve_conversation_effects E cfg req u c s) as [Hm _];
           pose proof (resolve_conversation_cases E cfg u c s) as Hc;
           rewrite Hr in Hm, Hc; cbn [snd log store] in Hm
       end.
  - split; [exact Hm|]. destruct a as [th c]. now destruct Hc as [Hn _].
  - split; [exact Hm|]. now destruct Hc as [_ Hn].
Qed.

Lemma serve_ok_inv E cfg req st d :
  fst (serve E cfg req st) = ok_response d ->
  (method req =? "OPTIONS") = false
  /\ exists st', handler_try E cfg req st = (Return d, st').
Proof.
  unfold serve. destruct (method req =? "OPTIONS").
  - cbn. intros H. discriminate.
  - destruct (handler_try E cfg req st) as [[d'|e] st']; cbn; intros H.
    + inversion H; subst. split; [reflexivity | now eexists].
    + discriminate.
Qed.

(** X6. A request answered with a chat response has added exactly two
    message rows to the conversation it names: the original message as
    ["user"], then the returned text as ["assistant"], in this order and
    with creation times in this order.  A request answered with status 500
    has added no row, or the ["user"] row alone. *)
Theorem rows_added_by_a_request E cfg req st :
  let r := serve E cfg req st in
  (forall d, fst r = ok_response d ->
     exists u a,
       messages (store (snd r)) = (messages (store st) ++ [u; a])%list
       /\ role u = user /\ original_message req (content u)
       /\ role a = assistant /\ content a = response d
       /\ conversation_id u = resp_conversationId d
       /\ conversation_id a = resp_conversationId d
       /\ (msg_created_at u <= msg_created_at a)%Z)
  /\ (status (fst r) = 500 ->
      messages (store (snd r)) = messages (store st)
      \/ exists u,
           messages (store (snd r)) = (messages (store st) ++ [u])%list
           /\ role u = user /\ original_message req (content u)).
Proof.
  intros r. subst r.
  assert (Hcase :
    (method req =? "OPTIONS") = false ->
    match handler_try E cfg req st with
    | (Return d, st') =>
        exists u a,
          messages (store st') = (messages (store st) ++ [u; a])%list
          /\ role u = user /\ original_message req (content u)
          /\ role a = assistant /\ content a = response d
          /\ conversation_id u = resp_conversationId d
          /\ conversation_id a = resp_conversationId d
          /\ (msg_created_at u <= msg_created_at a)%Z
    | (Throw e, st') =>
        messages (store st') = messages (store st)
        \/ exists u,
             messages (store st') = (messages (store st) ++ [u])%list
             /\ role u = user /\ original_message req (content u)
    end).
  { intros _. rewrite handler_try_split. unfold bind.
    destruct (open_turn E cfg req st) as [[t|e] st1] eqn:Ho.
    - destruct (open_turn_inv _ _ _ _ _ _ Ho)
        as [h [b [st0 [_ [_ [_ [_ [Hj [Hmsg [_ [_ [Hr [_ Hst1]]]]]]]]]]]]].
      destruct (resolve_conversation_effects E cfg req (turn_user t)
                  (conversationId b) (log (EvGetUser h) st)) as [Hm0 _].
      rewrite Hr in Hm0. cbn [snd log store] in Hm0.
      assert (Hrow : messages (store st1)
                     = (messages (store st)
                        ++ [message_row E st0 (dbConversationId t) user
                              (turn_message t)])%list)
        by now rewrite Hst1, message_inserted_messages, Hm0.
      pose proof (close_turn_cases E cfg t st1) as Hc.
      destruct (close_turn E cfg t st1) as [[d|e] st'].
      + destruct Hc as [st2 [Hst' [Hs2 [Hn [Hci Hti]]]]].
        exists (message_row E st0 (dbConversationId t) user (turn_message t)),
          (message_row E st2 (dbConversationId t) assistant (response d)).
        rewrite Hst', message_inserted_messages, Hs2, Hrow, <- app_assoc.
        repeat split; auto.
        * now exists b.
        * cbn. rewrite Hst1 in Hn. exact Hn.
      + right. rewrite Hc.
        exists (message_row E st0 (dbConversationId t) user (turn_message t)).
        repeat split; auto. now exists b.
    - left. now apply (open_turn_throw _ _ _ _ _ _ Ho). }
  split.
  - intros d Hd. destruct (serve_ok_inv _ _ _ _ _ Hd) as [Hm [st' Ht]].
    specialize (Hcase Hm). rewrite (serve_post _ _ _ _ Hm), Ht.
    rewrite Ht in Hcase. exact Hcase.
  - unfold serve. destruct (method req =? "OPTIONS"); [discriminate|].
    specialize (Hcase eq_refl).
    destruct (handler_try E cfg req st) as [[d|e] st']; cbn [fst snd status];
      [discriminate | intros _; exact Hcase].
Qed.

Lemma rows_added_by_a_request_witness :
  let E := demo_env "completed" (fun _ => NotOk) (Ok tt) in
  let r := serve E excursion_creator_config (demo_request None) demo_state in
  exists u a,
    messages (store (snd r)) = (messages demo_store ++ [u; a])%list
    /\ content u = "Plan a beach day" /\ content a = "Go outside".
Proof.
  intros E r. subst r.
  destruct (proj1 (rows_added_by_a_request E excursion_creator_config
                     (demo_request None) demo_state)
              {| response := "Go outside"; resp_conversationId := "iii";
                 resp_threadId := "thread_1" |} eq_refl)
    as [u [a [Hm [_ [[b [Hj Hu]] [_ [Ha _]]]]]]].
  exists u, a. repeat split; auto.
  inversion Hj; subst b. cbn in Hu. now inversion Hu.
Defined.

(** ** Failures after the message was appended *)

(** X7. The id of the remote assistant is read only after the user's
    message was stored and appended to the thread: on an endpoint whose
    assistant-id variable is unset or empty, a turn that got that far is
    answered with status 500 and the endpoint's "not configured" message,
    no run is created, and the stored message stays. *)
Theorem missing_assistant_id_after_append E cfg req st t st1 :
  (method req =? "OPTIONS") = false ->
  open_turn E cfg req st = (Return t, st1) ->
  post_messages E (threadId t)
    (cfg_thread_content cfg (turn_message t) (turn_userContext t)) = Ok tt ->
  truthy_opt (env_get E (cfg_assistant_id_var cfg)) = false ->
  serve E cfg req st
  = (error_response (cfg_not_configured cfg),
     log (EvAddMessage (threadId t)
            (cfg_thread_content cfg (turn_message t) (turn_userContext t)))
         st1)
  /\ exists row,
       messages (store st1) = (messages (store st) ++ [row])%list
       /\ role row = user /\ content row = turn_message t.
Proof.
  intros Hm Ho Hp Hk. split.
  - rewrite (serve_post _ _ _ _ Hm), handler_try_split.
    rewrite (bind_ok _ _ _ _ _ Ho). unfold close_turn. unfold bind at 1.
    rewrite append_turn_outcome, Hp. unfold bind at 1.
    unfold start_run. now rewrite Hk.
  - destruct (open_turn_inv _ _ _ _ _ _ Ho)
      as [h [b [st0 [_ [_ [_ [_ [_ [_ [_ [_ [Hr [_ Hst1]]]]]]]]]]]]].
    destruct (resolve_conversation_effects E cfg req (turn_user t)
                (conversationId b) (log (EvGetUser h) st)) as [Hm0 _].
    rewrite Hr in Hm0. cbn [snd log store] in Hm0.
    exists (message_row E st0 (dbConversationId t) user (turn_message t)).
    rewrite Hst1, message_inserted_messages, Hm0. now repeat split.
Qed.

Lemma missing_assistant_id_after_append_witness :
  let E := {| env_get := fun k =>
                if k =? "OPENAI_API_KEY" then Some "sk-demo" else None;
              createClient_error := None;
              auth_getUser := fun _ => Some "alice";
              select_conversation_error := None;
              insert_conversation_error := None;
              insert_message_error := fun _ => None;
              gen_id := fun _ => "x";
              post_threads := Ok "thread_1";
              post_messages := fun _ _ => Ok tt;
              post_runs := fun _ _ => NotOk;
              get_run := fun _ _ _ => NotOk;
              get_messages := fun _ => NotOk |} in
  let r := serve E health_coach_config (demo_request None) demo_state in
  fst r = error_response "Health Coach Assistant ID not configured"
  /\ map content (messages (store (snd r))) = ["hello"; "Plan a beach day"].
Proof.
  intros E r. subst r.
  epose proof (missing_assistant_id_after_append E health_coach_config
                 (demo_request None) demo_state _ _
                 eq_refl eq_refl eq_refl eq_refl) as [H _].
  rewrite H. split; reflexivity.
Defined.

(** X8. A status request that is not answered with success ends the turn
    at once: when the [n] polls before it reported pending statuses, the
    turn ends after exactly [n + 1] polls with status 500 and
    ["Failed to check run status"]. *)
Theorem failed_status_request_stops_polling E cfg req st t run st1 n :
  (method req =? "OPTIONS") = false ->
  submit_turn E cfg req st = (Return (t, run), st1) ->
  (run_status run =? "completed") = false ->
  n < 30 ->
  (forall i, i < n ->
     exists s', get_run E (threadId t) (run_id run) (polls st1 + i) = Ok s'
                /\ pending s' = true) ->
  get_run E (threadId t) (run_id run) (polls st1 + n) = NotOk ->
  serve E cfg req st
  = (error_response "Failed to check run status",
     polled (threadId t) (run_id run) (S n) st1).
Proof.
  intros Hm Hs Hrs Hn Hp Hg.
  rewrite (serve_post _ _ _ _ Hm), (handler_try_submitted _ _ _ _ _ _ _ Hs).
  destruct (poll_loop_pending E (threadId t) (run_id run) n
              (run_status run) 0 st1 Hrs) as [s' [Hl Hs']];
    [unfold maxAttempts; lia | exact Hp |].
  unfold poll_for_completion.
  rewrite (bind_throw _ _ st1 (JsError "Failed to check run status")
             (polled (threadId t) (run_id run) (S n) st1)).
  - reflexivity.
  - apply bind_throw. rewrite Hl, poll_loop_step.
    rewrite keep_polling_true by (auto; unfold maxAttempts; lia).
    rewrite poll_once, polled_polls, Hg, polled_add.
    now rewrite Nat.add_1_r.
Qed.

Lemma failed_status_request_stops_polling_witness :
  let E := demo_env "queued"
             (fun n => if Nat.ltb n 1 then Ok "queued" else NotOk) (Ok tt) in
  let r := serve E health_coach_config (demo_request None) demo_state in
  fst r = error_response "Failed to check run status" /\ polls (snd r) = 2.
Proof.
  intros E r. subst r.
  epose proof (failed_status_request_stops_polling E health_coach_config
                 (demo_request None) demo_state _ _ _ 1
                 eq_refl eq_refl eq_refl) as H.
  rewrite H.
  - split; reflexivity.
  - lia.
  - intros i Hi. exists "queued".
    destruct i as [|i]; [split; reflexivity | lia].
  - reflexivity.
Defined.

(** X9. A run that reports ["completed"] at a poll, after [n] pending
    polls, is polled no further: the turn goes on to the reply after
    exactly [n + 1] polls and [n + 1] seconds of sleep.  This holds up to
    the last attempt: completion at the 30th poll is not a timeout. *)
Theorem completed_run_proceeds_to_reply E cfg req st t run st1 n :
  (method req =? "OPTIONS") = false ->
  submit_turn E cfg req st = (Return (t, run), st1) ->
  (run_status run =? "completed") = false ->
  n < 30 ->
  (forall i, i < n ->
     exists s', get_run E (threadId t) (run_id run) (polls st1 + i) = Ok s'
                /\ pending s' = true) ->
  get_run E (threadId t) (run_id run) (polls st1 + n) = Ok "completed" ->
  serve E cfg req st
  = respond (reply_turn E t (polled (threadId t) (run_id run) (S n) st1))
  /\ polls (snd (serve E cfg req st)) = polls st1 + S n
  /\ now (snd (serve E cfg req st))
     = (now st1 + 1000 * Z.of_nat (S n))%Z.
Proof.
  intros Hm Hs Hrs Hn Hp Hg.
  assert (Heq : serve E cfg req st
                = respond (reply_turn E t
                             (polled (threadId t) (run_id run) (S n) st1))).
  { rewrite (serve_post _ _ _ _ Hm), (handler_try_submitted _ _ _ _ _ _ _ Hs).
    destruct (poll_loop_pending E (threadId t) (run_id run) n
                (run_status run) 0 st1 Hrs) as [s' [Hl Hs']];
      [unfold maxAttempts; lia | exact Hp |].
    f_equal. unfold poll_for_completion. unfold bind at 1 2.
    rewrite Hl, poll_loop_step.
    rewrite keep_polling_true by (auto; unfold maxAttempts; lia).
    rewrite poll_once, polled_polls, Hg, polled_add, Nat.add_1_r.
    cbn [run_ended String.eqb Ascii.eqb Bool.eqb orb].
    now rewrite poll_loop_completed. }
  rewrite Heq, respond_snd, reply_turn_polls, reply_turn_now.
  repeat split.
Qed.

Lemma completed_run_proceeds_to_reply_witness :
  let E := demo_env "queued"
             (fun n => if Nat.ltb n 29 then Ok "in_progress" else Ok "completed")
             (Ok tt) in
  let r := serve E health_coach_config (demo_request None) demo_state in
  status (fst r) = 200 /\ polls (snd r) = 30.
Proof.
  intros E r. subst r.
  epose proof (completed_run_proceeds_to_reply E health_coach_config
                 (demo_request None) demo_state _ _ _ 29
                 eq_refl eq_refl eq_refl) as H.
  destruct H as [H [Hp _]].
  - lia.
  - intros i Hi. exists "in_progress".
    assert (Hlt : Nat.ltb i 29 = true) by now apply Nat.ltb_lt.
    subst E. cbn -[Nat.ltb]. rewrite Hlt. split; reflexivity.
  - reflexivity.
  - rewrite Hp, H. split; reflexivity.
Defined.

(** ** The reply *)

Lemma find_first {A} (f : A -> bool) pre m post :
  Forall (fun x => f x = false) pre ->
  f m = true ->
  find f (pre ++ m :: post) = Some m.
Proof.
  induction pre as [|x pre IH]; intros Hp Hm; cbn [app find].
  - now rewrite Hm.
  - inversion Hp; subst. rewrite H1. now apply IH.
Qed.

Lemma find_none {A} (f : A -> bool) l :
  Forall (fun x => f x = false) l -> find f l = None.
Proof.
  induction l as [|x l IH]; intros H; [reflexivity|].
  inversion H; subst. cbn [find]. rewrite H2. now apply IH.
Qed.

(** X10. The reply is read off the first message of the listing whose
    role is ["assistant"], and off that message alone: its first part of
    type ["text"] is the reply, and when it has none the turn fails with
    ["No text content in assistant response"], whatever the later messages
    hold.  A listing without assistant message fails with
    ["No assistant response found"]. *)
Theorem first_assistant_message_decides E t st data :
  get_messages E (threadId t) = Ok data ->
  (Forall (fun x => is_assistant x = false) data ->
   get_assistant_response E t st
   = (Throw (JsError "No assistant response found"),
      log (EvListMessages (threadId t)) st))
  /\ (forall pre m post,
        data = (pre ++ m :: post)%list ->
        Forall (fun x => is_assistant x = false) pre ->
        is_assistant m = true ->
        get_assistant_response E t st
        = (match find is_text (tm_content m) with
           | Some c => Return (text_value c)
           | None => Throw (JsError "No text content in assistant response")
           end, log (EvListMessages (threadId t)) st)).
Proof.
  intros Hd.
  unfold get_assistant_response, list_messages. unfold bind, emit, check.
  rewrite Hd. unfold ret. split.
  - intros Hf. now rewrite (find_none _ _ Hf).
  - intros pre m post -> Hp Hm. rewrite (find_first _ _ _ _ Hp Hm).
    destruct (find is_text (tm_content m)); reflexivity.
Qed.

Lemma first_assistant_message_decides_witness :
  let data := [ {| tm_role := "user";
                   tm_content := [ {| part_type := "text";
                                      text_value := "hello" |} ] |};
                {| tm_role := "assistant";
                   tm_content := [ {| part_type := "image_file";
                                      text_value := "" |} ] |};
                {| tm_role := "assistant";
                   tm_content := [ {| part_type := "text";
                                      text_value := "an earlier reply" |} ] |} ] in
  let E := {| env_get := fun _ => None;
              createClient_error := None;
              auth_getUser := fun _ => None;
              select_conversation_error := None;
              insert_conversation_error := None;
              insert_message_error := fun _ => None;
              gen_id := fun _ => "x";
              post_threads := NotOk;
              post_messages := fun _ _ => NotOk;
              post_runs := fun _ _ => NotOk;
              get_run := fun _ _ _ => NotOk;
              get_messages := fun _ => Ok data |} in
  let t := {| turn_user := "alice"; turn_message := "hello";
              turn_userContext := None; threadId := "thread_1";
              dbConversationId := "c1" |} in
  fst (get_assistant_response E t demo_state)
  = Throw (JsError "No text content in assistant response").
Proof.
  intros data E t.
  rewrite (proj2 (first_assistant_message_decides E t demo_state data eq_refl)
             [nth 0 data (nth 1 data (nth 1 data (nth 1 data
                {| tm_role := ""; tm_content := [] |})))]
             (nth 1 data {| tm_role := ""; tm_content := [] |})
             [nth 2 data {| tm_role := ""; tm_content := [] |}]
             eq_refl).
  - reflexivity.
  - repeat constructor.
  - reflexivity.
Defined.

(** ** The content for the thread *)

Lemma append_same_left s t : (s ++ t)%string = s -> t = "".
Proof.
  induction s as [|a s IH]; cbn; intros H; [exact H|].
  inversion H. now apply IH.
Qed.

Lemma contextInfo_no_context c :
  contextInfo c = [] <-> no_context c = true.
Proof.
  unfold contextInfo, no_context.
  destruct (nonempty (healthGoals c)), (truthy_opt (mobilityLevel c)),
    (nonempty (preferredActivities c)), (truthy_opt (location_address c));
    cbn; split; intros H; try reflexivity; discriminate.
Qed.

Lemma contextInfo_lines c :
  length (contextInfo c) <= 4
  /\ Forall (fun line => truthy line = true) (contextInfo c).
Proof.
  unfold contextInfo.
  destruct (nonempty (healthGoals c)), (truthy_opt (mobilityLevel c)),
    (nonempty (preferredActivities c)), (truthy_opt (location_address c));
    cbn; split; try lia; repeat constructor.
Qed.

(** X11. The content posted to the thread by the excursion endpoint always
    begins with the message as sent.  It is the message itself exactly
    when no user context is given or when none of its fields yields an
    entry of [contextInfo]: the goals and activities are missing or empty
    arrays, the mobility level and the address are missing or empty.
    [contextInfo] has at most four entries, none of them the empty string.
    The entries are joined by newlines with the values of the fields
    copied as they are, so this bounds the entries and not the lines of
    the posted text. *)
Theorem messageContent_extends_message msg ctx :
  (exists suffix, messageContent msg ctx = msg ++ suffix)
  /\ (messageContent msg ctx = msg
      <-> match ctx with
          | None => True
          | Some c => no_context c = true
          end)
  /\ (forall c, ctx = Some c ->
                length (contextInfo c) <= 4
                /\ Forall (fun line => truthy line = true) (contextInfo c)).
Proof.
  repeat split.
  - unfold messageContent. destruct ctx as [c|].
    + destruct (contextInfo c); [exists ""|]; [|now eexists].
      clear. induction msg as [|a msg IH]; cbn; [reflexivity|].
      now rewrite <- IH.
    + exists "". clear. induction msg as [|a msg IH]; cbn; [reflexivity|].
      now rewrite <- IH.
  - destruct ctx as [c|]; [|trivial]. intros H.
    apply contextInfo_no_context. unfold messageContent in H.
    destruct (contextInfo c) as [|l ls]; [reflexivity|].
    apply append_same_left in H. discriminate.
  - destruct ctx as [c|]; [|reflexivity]. intros H.
    apply contextInfo_no_context in H. unfold messageContent. now rewrite H.
  - apply contextInfo_lines.
  - apply contextInfo_lines.
Qed.

(** ** Ownership and integrity *)

Lemma resolve_conversation_grows E cfg uid cid st :
  exists added,
    conversations (store (snd (resolve_conversation E cfg uid cid st)))
    = (conversations (store st) ++ added)%list
    /\ length added <= 1.
Proof.
  pose proof (resolve_conversation_cases E cfg uid cid st) as H.
  destruct (resolve_conversation E cfg uid cid st) as [[[th c]|e] st0];
    cbn [snd].
  - destruct H as [_ [[row [_ [_ [_ [_ [_ Hs]]]]]] | [_ [_ Hs]]]];
      rewrite Hs.
    + exists []. rewrite app_nil_r. split; [reflexivity | cbn; lia].
    + eexists [_]. split; [reflexivity | cbn; lia].
  - destruct H as [Hs _]. rewrite Hs. exists [].
    rewrite app_nil_r. split; [reflexivity | cbn; lia].
Qed.

Lemma open_turn_throw_conversations E cfg req st e st1 :
  open_turn E cfg req st = (Throw e, st1) ->
  exists added,
    conversations (store st1) = (conversations (store st) ++ added)%list
    /\ length added <= 1.
Proof.
  unfold open_turn, authenticate, parse_body, get_api_key, insert_message.
  run_handler; intros H; inversion H; subst; clear H;
    try (exists []; rewrite app_nil_r; split; [reflexivity | cbn; lia]).
  all: match goal with
       | Hr : resolve_conversation _ _ ?u ?c ?s = (_, _) |- _ =>
           destruct (resolve_conversation_grows E cfg u c s) as [added Ha];
           rewrite Hr in Ha; cbn [snd log store] in Ha
       end.
  all: now exists added.
Qed.

(** The two ways a request goes: it is over before a user message is
    stored, or it resolves a conversation of its caller, stores the
    message there and runs the rest of the turn. *)
Lemma serve_turn E cfg req st :
  let st' := snd (serve E cfg req st) in
  (messages (store st') = messages (store st)
   /\ exists evs added,
        trace st' = (trace st ++ evs)%list
        /\ Forall (opening req) evs
        /\ conversations (store st')
           = (conversations (store st) ++ added)%list
        /\ length added <= 1)
  \/ (exists h b t st0 evs0,
        authorization req = Some h
        /\ auth_getUser E h = Some (turn_user t)
        /\ original_message req (turn_message t)
        /\ resolve_conversation E cfg (turn_user t) (conversationId b)
             (log (EvGetUser h) st)
           = (Return (threadId t, dbConversationId t), st0)
        /\ trace st0 = (trace st ++ evs0)%list
        /\ Forall (opening req) evs0
        /\ turn_step cfg t
             (message_inserted E (dbConversationId t) user (turn_message t) st0)
             st').
Proof.
  intros st'. subst st'. unfold serve.
  destruct (method req =? "OPTIONS").
  { left. cbn [snd]. split; [reflexivity|].
    exists [], []. rewrite !app_nil_r. repeat split; auto. }
  change (snd (let (o, st') := handler_try E cfg req st in
               match o with
               | Return responseData =>
                   ({| status := 200; headers := json_headers;
                       body := BodyChat responseData |}, st')
               | Throw e =>
                   ({| status := 500; headers := json_headers;
                       body := BodyError (error_message e) |}, st')
               end))
    with (snd (respond (handler_try E cfg req st))).
  rewrite respond_snd, handler_try_split. unfold bind.
  destruct (open_turn_effects E cfg req st)
    as [evs1 [new1 [Ht1 [Fe1 _]]]].
  destruct (open_turn E cfg req st) as [[t|e] st1] eqn:Ho; cbn [snd] in *.
  - right.
    destruct (open_turn_inv _ _ _ _ _ _ Ho)
      as [h [b [st0 [Hh [_ [_ [Hu [Hj [Hmsg [_ [_ [Hr [_ Hst1]]]]]]]]]]]]].
    destruct (resolve_conversation_effects E cfg req (turn_user t)
                (conversationId b) (log (EvGetUser h) st))
      as [_ [evs0 [Ht0 Hf0]]].
    rewrite Hr in Ht0. cbn [snd log trace] in Ht0.
    exists h, b, t, st0, (EvGetUser h :: evs0).
    repeat split; auto.
    + now exists b.
    + rewrite Ht0, <- app_assoc. reflexivity.
    + constructor; [exact I | exact Hf0].
    + rewrite <- Hst1. apply close_turn_effects.
  - left. split; [now apply (open_turn_throw _ _ _ _ _ _ Ho)|].
    destruct (open_turn_throw_conversations _ _ _ _ _ _ Ho) as [added [Ha Hl]].
    now exists evs1, added.
Qed.

Lemma opening_no_thread req ev : opening req ev -> event_thread ev = None.
Proof. destruct ev; cbn; intros H; try reflexivity; destruct H. Qed.

Lemma about_thread cfg t ev th :
  about cfg t ev -> event_thread ev = Some th -> th = threadId t.
Proof.
  destruct ev; cbn; intros H He; try discriminate; inversion He; subst.
  - now destruct H.
  - now symmetry.
  - now symmetry.
  - now symmetry.
Qed.

Lemma key_in cs cs' c :
  map conversation_key cs' = map conversation_key cs ->
  In c cs ->
  exists c', In c' cs' /\ conversation_key c' = conversation_key c.
Proof.
  intros Hk Hin.
  assert (H : In (conversation_key c) (map conversation_key cs'))
    by (rewrite Hk; now apply in_map).
  apply in_map_iff in H. destruct H as [c' [Hc' Hin']]. now exists c'.
Qed.

(** The conversation of a turn, as the final store holds it. *)
Lemma turn_conversation E cfg uid cid st th c st0 t st' :
  resolve_conversation E cfg uid cid st = (Return (th, c), st0) ->
  threadId t = th -> dbConversationId t = c ->
  turn_step cfg t (message_inserted E c user (turn_message t) st0) st' ->
  exists row,
    In row (conversations (store st'))
    /\ id row = c /\ user_id row = uid /\ thread_id row = th.
Proof.
  intros Hr Hth Hc [evs [new [_ [_ [_ [_ Hk]]]]]].
  cbn [message_inserted set_store store conversations] in Hk.
  rewrite touch_key in Hk.
  pose proof (resolve_conversation_cases E cfg uid cid st) as H.
  rewrite Hr in H.
  assert (H0 : exists row0, In row0 (conversations (store st0))
                            /\ id row0 = c /\ user_id row0 = uid
                            /\ thread_id row0 = th).
  { destruct H as [_ [[row [Hin [Hi [Hu [Ht [_ Hs]]]]]] | [_ [Hi Hs]]]].
    - exists row. rewrite Hs. now repeat split.
    - exists (conversation_row E cfg st uid th). rewrite Hs.
      repeat split; auto. cbn [conversations]. apply in_or_app. right.
      now left. }
  destruct H0 as [row0 [Hin0 [Hi0 [Hu0 Ht0]]]].
  destruct (key_in _ _ row0 Hk Hin0) as [row [Hin Hkey]].
  exists row. unfold conversation_key in Hkey. inversion Hkey.
  repeat split; auto; congruence.
Qed.

Lemma may_insert_of_row s uid row :
  In row (conversations s) -> user_id row = uid ->
  may_insert_message s uid (id row) = true.
Proof.
  intros Hin Hu. unfold may_insert_message. apply existsb_exists.
  exists row. split; [exact Hin|].
  rewrite String.eqb_refl. cbn [andb]. now apply String.eqb_eq.
Qed.

(** X12. The message rows a request adds all belong to one conversation
    that the final store holds and that the authenticated caller owns, so
    that the insert policy of [messages] lets them pass; and every request
    it makes to the remote service is about the thread of that
    conversation.  A request that adds no row makes no request about any
    thread. *)
Theorem turn_stays_in_owned_conversation E cfg req st :
  let st' := snd (serve E cfg req st) in
  exists evs new,
    trace st' = (trace st ++ evs)%list
    /\ messages (store st') = (messages (store st) ++ new)%list
    /\ ((new = [] /\ Forall (fun ev => event_thread ev = None) evs)
        \/ exists h uid c,
             authorization req = Some h
             /\ auth_getUser E h = Some uid
             /\ In c (conversations (store st'))
             /\ user_id c = uid
             /\ may_insert_message (store st') uid (id c) = true
             /\ new <> []
             /\ Forall (fun m => conversation_id m = id c) new
             /\ Forall (fun ev => forall th, event_thread ev = Some th ->
                                             th = thread_id c) evs).
Proof.
  intros st'. subst st'.
  destruct (serve_turn E cfg req st)
    as [[Hm [evs [added [Ht [Fe _]]]]]
       | [h [b [t [st0 [evs0 [Hh [Hu [_ [Hr [Ht0 [Fe0 Hstep]]]]]]]]]]]].
  - exists evs, []. rewrite app_nil_r. repeat split; auto. left.
    split; [reflexivity|]. eapply Forall_impl; [|exact Fe].
    intros ev. apply opening_no_thread.
  - destruct (turn_conversation E cfg _ _ _ _ _ _ t _ Hr eq_refl eq_refl
                Hstep) as [row [Hin [Hi [Hown Hth]]]].
    destruct (resolve_conversation_effects E cfg req (turn_user t)
                (conversationId b) (log (EvGetUser h) st)) as [Hm0 _].
    rewrite Hr in Hm0. cbn [snd log store] in Hm0.
    destruct Hstep as [evs2 [new2 [Ht2 [Fe2 [Hm2 [Fn2 _]]]]]].
    cbn [message_inserted set_store log store trace messages] in Ht2, Hm2.
    exists (evs0 ++ EvInsertMessage (dbConversationId t) user (turn_message t)
                 :: evs2)%list,
      (message_row E st0 (dbConversationId t) user (turn_message t) :: new2).
    rewrite Ht2, Hm2, Ht0, Hm0, <- !app_assoc. repeat split; auto.
    right. exists h, (turn_user t), row. repeat split; auto.
    + now apply may_insert_of_row.
    + discriminate.
    + constructor; [now rewrite Hi|].
      eapply Forall_impl; [|exact Fn2]. intros m [_ Hc]. now rewrite Hi.
    + apply Forall_app. split.
      * eapply Forall_impl; [|exact Fe0]. intros ev Ho th He.
        rewrite (opening_no_thread _ _ Ho) in He. discriminate.
      * constructor; [intros th He; discriminate|].
        eapply Forall_impl; [|exact Fe2]. intros ev Ha th He.
        rewrite Hth. now apply (about_thread cfg t ev).
Qed.

(** X13. A request keeps the conversations of the store, with their id,
    owner, assistant type and thread, and adds at most one; and it keeps
    the store referentially intact: if every message referred to a
    conversation of the store before, every message does after. *)
Theorem request_keeps_store_intact E cfg req st :
  let st' := snd (serve E cfg req st) in
  (exists added,
     map conversation_key (conversations (store st'))
     = (map conversation_key (conversations (store st)) ++ added)%list
     /\ length added <= 1)
  /\ (references_hold (store st) -> references_hold (store st')).
Proof.
  intros st'. subst st'.
  destruct (serve_turn E cfg req st)
    as [[Hm [evs [added [_ [_ [Hc Hl]]]]]]
       | [h [b [t [st0 [evs0 [_ [_ [_ [Hr [_ [_ Hstep]]]]]]]]]]]].
  - split.
    + exists (map conversation_key added).
      rewrite Hc, map_app, length_map. now split.
    + intros Href m Hin. rewrite Hm in Hin.
      destruct (Href m Hin) as [c [Hcin Hid]]. exists c.
      split; [|exact Hid]. rewrite Hc. apply in_or_app. now left.
  - destruct (turn_conversation E cfg _ _ _ _ _ _ t _ Hr eq_refl eq_refl
                Hstep) as [row [Hin [Hi _]]].
    destruct (resolve_conversation_effects E cfg req (turn_user t)
                (conversationId b) (log (EvGetUser h) st)) as [Hm0 _].
    rewrite Hr in Hm0. cbn [snd log store] in Hm0.
    destruct (resolve_conversation_grows E cfg (turn_user t)
                (conversationId b) (log (EvGetUser h) st)) as [added [Ha Hl]].
    rewrite Hr in Ha. cbn [snd log store] in Ha.
    destruct Hstep as [evs2 [new2 [_ [_ [Hm2 [Fn2 Hk]]]]]].
    cbn [message_inserted set_store store messages conversations] in Hm2, Hk.
    rewrite touch_key, Ha, map_app in Hk.
    split.
    + exists (map conversation_key added). rewrite length_map. now split.
    + intros Href m Hmin. rewrite Hm2, Hm0, <- app_assoc in Hmin.
      apply in_app_or in Hmin. destruct Hmin as [Hold|[Hu|Hnew]].
      * destruct (Href m Hold) as [c [Hcin Hid]].
        assert (Hkin : In (conversation_key c)
                          (map conversation_key
                             (conversations (store (snd (serve E cfg req st)))))).
        { rewrite Hk. apply in_or_app. left. now apply in_map. }
        apply in_map_iff in Hkin. destruct Hkin as [c' [Hkey Hc'in]].
        exists c'. split; [exact Hc'in|].
        unfold conversation_key in Hkey. inversion Hkey. congruence.
      * subst m. exists row. now split.
      * rewrite Forall_forall in Fn2. destruct (Fn2 m Hnew) as [_ Hcid].
        exists row. split; [exact Hin | congruence].
Qed.

(** ** Time *)

Lemma open_turn_now E cfg req st :
  now (snd (open_turn E cfg req st)) = now st.
Proof.
  destruct (open_turn E cfg req st) as [[t|e] st1] eqn:Ho; cbn [snd].
  - destruct (open_turn_inv _ _ _ _ _ _ Ho)
      as [h [b [st0 [_ [_ [_ [_ [_ [_ [_ [_ [Hr [_ Hst1]]]]]]]]]]]]].
    pose proof (resolve_conversation_cases E cfg (turn_user t)
                  (conversationId b) (log (EvGetUser h) st)) as Hc.
    rewrite Hr in Hc. destruct Hc as [Hn _]. now rewrite Hst1.
  - now apply (open_turn_throw _ _ _ _ _ _ Ho).
Qed.

Lemma close_turn_clock E cfg t st :
  exists n,
    n <= maxAttempts
    /\ polls (snd (close_turn E cfg t st)) = polls st + n
    /\ now (snd (close_turn E cfg t st)) = (now st + 1000 * Z.of_nat n)%Z.
Proof.
  unfold close_turn. unfold bind. rewrite append_turn_outcome.
  destruct (post_messages E (threadId t) _) as [m| |[]];
    try (exists 0; cbn; repeat split; lia).
  destruct (start_run_frame E cfg t
              (log (EvAddMessage (threadId t)
                      (cfg_thread_content cfg (turn_message t)
                         (turn_userContext t))) st)) as [_ Hn].
  pose proof (start_run_polls E cfg t
                (log (EvAddMessage (threadId t)
                        (cfg_thread_content cfg (turn_message t)
                           (turn_userContext t))) st)) as Hp.
  destruct (start_run E cfg t _) as [[run|e] s2]; cbn [snd log polls now] in *;
    [|exists 0; repeat split; lia].
  destruct (poll_loop_state E (threadId t) (run_id run) (run_status run) 0 s2)
    as [n [Hs Hle]].
  exists n. unfold poll_for_completion, bind.
  destruct (poll_loop E (threadId t) (run_id run) (run_status run) 0 s2)
    as [[s|e] s3]; cbn [snd] in Hs; subst s3.
  - destruct (negb (s =? "completed")); unfold throw, ret; cbn [snd].
    + cbn [polled polls now]. repeat split; lia.
    + rewrite reply_turn_polls, reply_turn_now. cbn [polled polls now].
      repeat split; lia.
  - cbn [snd polled polls now]. repeat split; lia.
Qed.

(** X14. The only waiting a request does is the second of sleep before
    each status poll: in all it sleeps 1000 ms times the number of its
    polls, at most 30 seconds. *)
Theorem request_sleeps_a_second_per_poll E cfg req st :
  let st' := snd (serve E cfg req st) in
  exists n,
    n <= 30
    /\ polls st' = polls st + n
    /\ now st' = (now st + 1000 * Z.of_nat n)%Z.
Proof.
  intros st'. subst st'. unfold serve.
  destruct (method req =? "OPTIONS").
  { exists 0. cbn. repeat split; lia. }
  change (snd (let (o, st') := handler_try E cfg req st in
               match o with
               | Return responseData =>
                   ({| status := 200; headers := json_headers;
                       body := BodyChat responseData |}, st')
               | Throw e =>
                   ({| status := 500; headers := json_headers;
                       body := BodyError (error_message e) |}, st')
               end))
    with (snd (respond (handler_try E cfg req st))).
  rewrite respond_snd, handler_try_split. unfold bind.
  pose proof (open_turn_now E cfg req st) as Hn.
  pose proof (open_turn_polls E cfg req st) as Hp.
  destruct (open_turn E cfg req st) as [[t|e] st1]; cbn [snd] in *.
  - destruct (close_turn_clock E cfg t st1) as [n [Hle [Hpn Hnn]]].
    exists n. rewrite Hpn, Hnn, Hp, Hn. now repeat split.
  - exists 0. rewrite Hp, Hn. repeat split; lia.
Qed.

(** ** A turn as the SDK sees it afterwards *)

(** The store a request that is answered with a chat response leaves. *)
Lemma ok_request_store E cfg req st d :
  fst (serve E cfg req st) = ok_response d ->
  exists h b t st0 st2,
    authorization req = Some h
    /\ auth_getUser E h = Some (turn_user t)
    /\ original_message req (turn_message t)
    /\ resolve_conversation E cfg (turn_user t) (conversationId b)
         (log (EvGetUser h) st)
       = (Return (threadId t, dbConversationId t), st0)
    /\ resp_conversationId d = dbConversationId t
    /\ resp_threadId d = threadId t
    /\ store st2
       = store (message_inserted E (dbConversationId t) user
                  (turn_message t) st0)
    /\ (now st <= now st2)%Z
    /\ snd (serve E cfg req st)
       = message_inserted E (dbConversationId t) assistant (response d) st2.
Proof.
  intros Hd. destruct (serve_ok_inv _ _ _ _ _ Hd) as [Hm [st' Ht]].
  rewrite (serve_post _ _ _ _ Hm), Ht. cbn [respond snd].
  rewrite handler_try_split in Ht. apply bind_inv in Ht.
  destruct Ht as [t [st1 [Ho Hc]]].
  destruct (open_turn_inv _ _ _ _ _ _ Ho)
    as [h [b [st0 [Hh [_ [_ [Hu [Hj [Hmsg [_ [_ [Hr [_ Hst1]]]]]]]]]]]]].
  pose proof (close_turn_cases E cfg t st1) as Hcc. rewrite Hc in Hcc.
  destruct Hcc as [st2 [Hst' [Hs2 [Hn [Hci Hti]]]]].
  pose proof (resolve_conversation_cases E cfg (turn_user t)
                (conversationId b) (log (EvGetUser h) st)) as Hrc.
  rewrite Hr in Hrc. destruct Hrc as [Hn0 _]. cbn [log now] in Hn0.
  exists h, b, t, st0, st2. repeat split; auto.
  - now exists b.
  - now rewrite Hs2, Hst1.
  - rewrite Hst1 in Hn. cbn [message_inserted set_store log now] in Hn. lia.
Qed.

Lemma touch_id cid z c : id (touch cid z c) = id c.
Proof. unfold touch. destruct (id c =? cid); reflexivity. Qed.

Lemma touch_user cid z c : user_id (touch cid z c) = user_id c.
Proof. unfold touch. destruct (id c =? cid); reflexivity. Qed.

Lemma touch_hit cid z c : id c = cid -> updated_at (touch cid z c) = z.
Proof.
  intros H. unfold touch. rewrite H, String.eqb_refl. reflexivity.
Qed.

Lemma touch_miss cid z c : id c <> cid -> touch cid z c = c.
Proof.
  intros H. unfold touch. apply String.eqb_neq in H. now rewrite H.
Qed.

(** The conversations after the two inserts of a turn at times [z1] and
    [z2]: a row of the turn's conversation is stamped [z2], any other row
    is as it was. *)
Lemma touched_twice cid z1 z2 cs c :
  In c (map (touch cid z2) (map (touch cid z1) cs)) ->
  (id c = cid /\ updated_at c = z2) \/ (id c <> cid /\ In c cs).
Proof.
  rewrite map_map. intros H. apply in_map_iff in H.
  destruct H as [x [Hx Hin]]. subst c.
  destruct (String.eqb_spec (id x) cid) as [He|Hne].
  - left. rewrite !touch_id. split; [exact He|].
    apply touch_hit. now rewrite touch_id.
  - right. rewrite (touch_miss cid z1 x Hne), (touch_miss cid z2 x Hne).
    now split.
Qed.

Lemma getConversations_all caller s :
  AssistantsAPI.getConversations caller None s None
  = Return (sort_by (key_le updated_at false)
              (filter (visible_conversation caller) (conversations s))).
Proof.
  unfold AssistantsAPI.getConversations, AssistantsAPI.await, answer.
  cbn. f_equal. f_equal.
  induction (filter (visible_conversation caller) (conversations s))
    as [|x l IH]; [reflexivity|]. cbn. now rewrite IH.
Qed.

(** X15. After a request was answered with a chat response, the
    conversation it names is the first one [getConversations] lists for
    its caller, provided the conversations of the store were last active
    before the request began: the insert of a message stamps the
    conversation, and the listing is by latest activity. *)
Theorem answered_conversation_listed_first E cfg req st d h uid :
  fst (serve E cfg req st) = ok_response d ->
  authorization req = Some h ->
  auth_getUser E h = Some uid ->
  (forall c, In c (conversations (store st)) -> (updated_at c < now st)%Z) ->
  exists c rest,
    AssistantsAPI.getConversations uid None
      (store (snd (serve E cfg req st))) None
    = Return (c :: rest)
    /\ id c = resp_conversationId d
    /\ user_id c = uid
    /\ Forall (fun x => (updated_at x <= updated_at c)%Z) rest.
Proof.
  intros Hd Hh Hu Hold.
  destruct (ok_request_store _ _ _ _ _ Hd)
    as [h' [b [t [st0 [st2 [Hh' [Hu' [_ [Hr [Hci [_ [Hs2 [Hn Hst']]]]]]]]]]]]].
  rewrite Hh in Hh'. inversion Hh'; subst h'. rewrite Hu in Hu'.
  inversion Hu' as [Hut]. rewrite getConversations_all, Hst', Hci.
  cbn [message_inserted set_store store conversations].
  rewrite Hs2. cbn [message_inserted set_store store conversations].
  set (cid := dbConversationId t).
  set (cs := map (touch cid (now st2))
               (map (touch cid (now st0)) (conversations (store st0)))).
  set (L := sort_by (key_le updated_at false)
              (filter (visible_conversation (turn_user t)) cs)).
  assert (Hperm : Permutation L (filter (visible_conversation (turn_user t)) cs))
    by (apply sort_by_perm).
  assert (Hsorted : StronglySorted
                      (fun a b => key_le updated_at false a b = true) L).
  { apply Sorted_StronglySorted; [apply key_le_trans|].
    apply sort_by_sorted. apply key_le_total. }
  (* the row of the turn *)
  pose proof (resolve_conversation_cases E cfg (turn_user t)
                (conversationId b) (log (EvGetUser h) st)) as Hrc.
  rewrite Hr in Hrc. destruct Hrc as [Hn0 Hrc]. cbn [log now store] in Hn0, Hrc.
  assert (Hrow0 : exists r0, In r0 (conversations (store st0))
                             /\ id r0 = cid /\ user_id r0 = turn_user t).
  { destruct Hrc as [[row [Hin [Hi [Hown [_ [_ Hs]]]]]] | [_ [Hi Hs]]].
    - exists row. rewrite Hs. now repeat split.
    - exists (conversation_row E cfg (log (EvGetUser h) st)
                (turn_user t) (threadId t)).
      rewrite Hs. repeat split; auto. cbn [conversations].
      apply in_or_app. right. now left. }
  destruct Hrow0 as [r0 [Hin0 [Hi0 Hown0]]].
  set (r := touch cid (now st2) (touch cid (now st0) r0)).
  assert (HrL : In r L).
  { apply (Permutation_in _ (Permutation_sym Hperm)).
    apply filter_In. split.
    - unfold cs, r. now apply in_map, in_map.
    - unfold visible_conversation, r. rewrite !touch_user, Hown0.
      apply String.eqb_refl. }
  assert (Hrt : updated_at r = now st2).
  { unfold r. apply touch_hit. now rewrite touch_id. }
  destruct L as [|c rest] eqn:HL; [destruct HrL|].
  exists c, rest. split; [reflexivity|].
  inversion Hsorted as [|? ? Hrest Hhead]; subst.
  assert (Hc : In c (filter (visible_conversation (turn_user t)) cs)).
  { apply (Permutation_in _ Hperm). now left. }
  apply filter_In in Hc. destruct Hc as [Hccs Hvis].
  repeat split.
  - destruct (touched_twice _ _ _ _ _ Hccs) as [[Hi _]|[Hne Hc0]];
      [exact Hi|].
    exfalso.
    assert (Hcst : In c (conversations (store st))).
    { destruct Hrc as [[_ [_ [_ [_ [_ [_ Hs]]]]]] | [_ [Hi Hs]]].
      - now rewrite Hs in Hc0.
      - rewrite Hs in Hc0. cbn [conversations] in Hc0.
        apply in_app_or in Hc0. destruct Hc0 as [Hc0|[Hc0|[]]]; [exact Hc0|].
        subst c. exfalso. apply Hne. cbn. unfold cid. now rewrite Hi. }
    specialize (Hold c Hcst).
    assert (Hle : (updated_at r <= updated_at c)%Z).
    { destruct HrL as [Heq|Hin].
      - subst c. lia.
      - rewrite Forall_forall in Hhead. specialize (Hhead r Hin).
        unfold key_le in Hhead. now apply Z.leb_le in Hhead. }
    lia.
  - unfold visible_conversation in Hvis. apply String.eqb_eq in Hvis.
    congruence.
  - eapply Forall_impl; [|exact Hhead]. intros x Hx.
    unfold key_le in Hx. now apply Z.leb_le in Hx.
Qed.

Lemma answered_conversation_listed_first_witness :
  let E := demo_env "queued" (fun _ => Ok "completed") (Ok tt) in
  let st' := snd (serve E health_coach_config (demo_request None) demo_state) in
  exists c rest,
    AssistantsAPI.getConversations "alice" None (store st') None
    = Return (c :: rest)
    /\ id c = "iii" /\ user_id c = "alice".
Proof.
  intros E st'. subst st'.
  destruct (answered_conversation_listed_first E health_coach_config
              (demo_request None) demo_state
              {| response := "Go outside"; resp_conversationId := "iii";
                 resp_threadId := "thread_1" |} "Bearer alice" "alice"
              eq_refl eq_refl eq_refl)
    as [c [rest [Hg [Hi [Hu _]]]]].
  - intros c [Hc|[]]. subst c. cbn. lia.
  - exists c, rest. now repeat split.
Defined.

Lemma getMessages_listing caller s cid :
  exists data,
    AssistantsAPI.getMessages caller None s cid = Return data
    /\ Permutation data
         (filter (fun m => visible_message s caller m
                           && (conversation_id m =? cid))
                 (messages s))
    /\ StronglySorted (fun a b => (msg_created_at a <= msg_created_at b)%Z)
         data.
Proof.
  unfold AssistantsAPI.getMessages, AssistantsAPI.await.
  cbn [AssistantsAPI.or_empty_array]. eexists. split; [reflexivity|].
  destruct (answer_ordered
              (filter (visible_message s caller) (messages s))
              (order msg_created_at true
                 (eq_filter (fun m => conversation_id m =? cid) select_all))
              msg_created_at true eq_refl) as [Hs Hp].
  split.
  - rewrite Hp, filter_filter_and.
    erewrite filter_ext; [reflexivity|].
    intros c. cbn. now rewrite andb_true_r.
  - eapply StronglySorted_impl; [|exact Hs].
    intros a b H. now apply Z.leb_le in H.
Qed.

(** X16. After a request was answered with a chat response,
    [getMessages], called by its caller for the conversation the answer
    names, lists rows of that conversation only, among them the original
    message as ["user"] and the returned text as ["assistant"]. *)
Theorem answered_messages_are_listed E cfg req st d h uid :
  fst (serve E cfg req st) = ok_response d ->
  authorization req = Some h ->
  auth_getUser E h = Some uid ->
  exists data u a,
    AssistantsAPI.getMessages uid None (store (snd (serve E cfg req st)))
      (resp_conversationId d)
    = Return data
    /\ Forall (fun m => conversation_id m = resp_conversationId d) data
    /\ In u data /\ role u = user /\ original_message req (content u)
    /\ In a data /\ role a = assistant /\ content a = response d.
Proof.
  intros Hd Hh Hu.
  destruct (ok_request_store _ _ _ _ _ Hd)
    as [h' [b [t [st0 [st2 [Hh' [Hu' [Hom [Hr [Hci [_ [Hs2 [Hn Hst']]]]]]]]]]]]].
  rewrite Hh in Hh'. inversion Hh'; subst h'. rewrite Hu in Hu'.
  inversion Hu' as [Hut].
  destruct (getMessages_listing (turn_user t)
              (store (snd (serve E cfg req st))) (resp_conversationId d))
    as [data [Hg [Hp _]]].
  set (u := message_row E st0 (dbConversationId t) user (turn_message t)).
  set (a := message_row E st2 (dbConversationId t) assistant (response d)).
  (* the row of the turn's conversation in the final store *)
  pose proof (resolve_conversation_cases E cfg (turn_user t)
                (conversationId b) (log (EvGetUser h) st)) as Hrc.
  rewrite Hr in Hrc. destruct Hrc as [_ Hrc]. cbn [log store] in Hrc.
  assert (Hrow0 : exists r0, In r0 (conversations (store st0))
                             /\ id r0 = dbConversationId t
                             /\ user_id r0 = turn_user t).
  { destruct Hrc as [[row [Hin [Hi [Hown [_ [_ Hs]]]]]] | [_ [Hi Hs]]].
    - exists row. rewrite Hs. now repeat split.
    - exists (conversation_row E cfg (log (EvGetUser h) st)
                (turn_user t) (threadId t)).
      rewrite Hs. repeat split; auto. cbn [conversations].
      apply in_or_app. right. now left. }
  destruct Hrow0 as [r0 [Hin0 [Hi0 Hown0]]].
  assert (Hvis : forall m,
             conversation_id m = dbConversationId t ->
             visible_message (store (snd (serve E cfg req st)))
               (turn_user t) m = true).
  { intros m Hm. unfold visible_message. apply existsb_exists.
    exists (touch (dbConversationId t) (now st2)
              (touch (dbConversationId t) (now st0) r0)).
    split.
    - rewrite Hst'. cbn [message_inserted set_store store conversations].
      rewrite Hs2. cbn [message_inserted set_store store conversations].
      now apply in_map, in_map.
    - rewrite !touch_id, !touch_user, Hi0, Hown0, Hm.
      now rewrite !String.eqb_refl. }
  assert (Hmsgs : messages (store (snd (serve E cfg req st)))
                  = ((messages (store st0) ++ [u]) ++ [a])%list).
  { rewrite Hst', message_inserted_messages, Hs2.
    now rewrite message_inserted_messages. }
  assert (Hin : forall m, In m [u; a] -> In m data).
  { intros m Hm. apply (Permutation_in _ (Permutation_sym Hp)).
    apply filter_In. split.
    - rewrite Hmsgs, <- app_assoc. apply in_or_app. now right.
    - assert (Hc : conversation_id m = dbConversationId t)
        by (destruct Hm as [Hm|[Hm|[]]]; now subst m).
      rewrite (Hvis m Hc), Hc, Hci. cbn [andb]. apply String.eqb_refl. }
  subst uid. exists data, u, a. repeat split; auto.
  - apply Forall_forall. intros m Hm.
    apply (Permutation_in _ Hp) in Hm. apply filter_In in Hm.
    destruct Hm as [_ Hf]. apply andb_true_iff in Hf.
    destruct Hf as [_ Hf]. now apply String.eqb_eq in Hf.
  - apply Hin. now left.
  - apply Hin. right. now left.
Qed.

Lemma answered_messages_are_listed_witness :
  let E := demo_env "queued" (fun _ => Ok "completed") (Ok tt) in
  let st' := snd (serve E health_coach_config (demo_request None) demo_state) in
  exists data u a,
    AssistantsAPI.getMessages "alice" None (store st') "iii" = Return data
    /\ In u data /\ content u = "Plan a beach day"
    /\ In a data /\ content a = "Go outside".
Proof.
  intros E st'. subst st'.
  destruct (answered_messages_are_listed E health_coach_config
              (demo_request None) demo_state
              {| response := "Go outside"; resp_conversationId := "iii";
                 resp_threadId := "thread_1" |} "Bearer alice" "alice"
              eq_refl eq_refl eq_refl)
    as [data [u [a [Hg [_ [Hu [_ [[b [Hj Hm]] [Ha [_ Hc]]]]]]]]]].
  exists data, u, a. repeat split; auto.
  inversion Hj; subst b. cbn in Hm. now inversion Hm.
Defined.

(** ** [sendMessage] and the endpoints *)

Lemma truthy_bearer token : truthy ("Bearer " ++ token) = true.
Proof. reflexivity. Qed.

Lemma error_message_of_response E cfg req st m :
  fst (serve E cfg req st) = error_response m ->
  status (fst (serve E cfg req st)) = 500
  /\ body (fst (serve E cfg req st)) = BodyError m.
Proof. intros H. now rewrite H. Qed.

(** X17. Over a network that delivers to the endpoints, [sendMessage] of a
    signed-in client leaves the backend as the endpoint of the assistant
    type leaves it on the request built from the arguments.  When it
    returns, it returns the chat response of the endpoint; when the
    endpoint answers with an error, it throws an [Error] with the
    endpoint's message, or ["Failed to send message"] if that is empty.
    An empty text is turned away by the endpoint with
    ["Message is required"] once the caller is known; a non-empty text
    from a known caller is an accepted request where the API key is
    configured. *)
Theorem sendMessage_reaches_endpoint E supabaseUrl fetch token empty_body_error
    ty msg cid ctx st :
  truthy supabaseUrl = true ->
  delivers E supabaseUrl fetch ->
  let req := sent_request token msg cid ctx in
  let r := serve E (endpoint_config ty) req st in
  let out := AssistantsAPI.sendMessage (Some token) (Some supabaseUrl) fetch
               empty_body_error ty msg cid ctx st in
  snd out = snd r
  /\ match fst out with
     | Return v => exists d, v = BodyChat d /\ fst r = ok_response d
     | Throw e =>
         exists m, fst r = error_response m
                   /\ e = JsError (if truthy m then m
                                   else "Failed to send message")
     end
  /\ (forall uid,
        createClient_error E = None ->
        auth_getUser E ("Bearer " ++ token) = Some uid ->
        (truthy msg = false ->
         fst out = Throw (JsError "Message is required"))
        /\ (truthy msg = true ->
            truthy_opt (env_get E "OPENAI_API_KEY") = true ->
            accepted E req ("Bearer " ++ token) uid
              {| message := Some msg; conversationId := cid;
                 userContext := ctx |} msg)).
Proof.
  intros Hb Hd req r out.
  assert (Hout : out = match handler_try E (endpoint_config ty) req st with
                       | (Return d, st') => (Return (BodyChat d), st')
                       | (Throw e, st') =>
                           (Throw (JsError
                                     (if truthy (error_message e)
                                      then error_message e
                                      else "Failed to send message")), st')
                       end).
  { subst out. unfold AssistantsAPI.sendMessage, AssistantsAPI.getEdgeFunctionUrl.
    cbn [truthy_opt or_empty]. rewrite Hb. cbn [negb].
    fold (sent_request token msg cid ctx). fold req.
    rewrite (Hd ty req st).
    unfold serve. cbn [req sent_request method String.eqb Ascii.eqb Bool.eqb].
    destruct (handler_try E (endpoint_config ty) req st) as [[d|e] st'];
      reflexivity. }
  assert (Hr : r = respond (handler_try E (endpoint_config ty) req st))
    by (subst r; now apply serve_post).
  rewrite Hout, Hr. split; [|split; [|intros uid H H0; split]].
  - destruct (handler_try E (endpoint_config ty) req st) as [[d|e] st'];
      reflexivity.
  - destruct (handler_try E (endpoint_config ty) req st) as [[d|e] st'];
      cbn [fst respond]; now eexists.
  - intros Hm.
    unfold handler_try, open_turn, authenticate, parse_body.
    unfold bind, emit, throw, ret.
    cbn [req sent_request authorization json message truthy_opt or_empty].
    rewrite truthy_bearer, H. cbn [negb]. rewrite H0, Hm. reflexivity.
  - intros Hm Hk. unfold accepted. subst req.
    cbn [sent_request method authorization json message].
    repeat split; auto.
Qed.

Lemma demo_fetch_delivers E :
  delivers E "https://demo.supabase.co" (demo_fetch E).
Proof. intros ty req st. destruct ty; reflexivity. Qed.

Lemma sendMessage_reaches_endpoint_witness :
  let E := demo_env "completed" (fun _ => NotOk) (Ok tt) in
  let out := AssistantsAPI.sendMessage (Some "alice")
               (Some "https://demo.supabase.co") (demo_fetch E)
               "Unexpected end of JSON input" excursion_creator
               "" None None demo_state in
  fst out = Throw (JsError "Message is required")
  /\ store (snd out) = demo_store.
Proof.
  intros E out. subst out.
  destruct (sendMessage_reaches_endpoint E "https://demo.supabase.co"
              (demo_fetch E) "alice" "Unexpected end of JSON input"
              excursion_creator "" None None demo_state eq_refl
              (demo_fetch_delivers E)) as [Hs [_ Hm]].
  destruct (Hm "alice" eq_refl eq_refl) as [He _].
  split; [exact (He eq_refl) | now rewrite Hs].
Defined.

(** ** [deleteConversation] *)

Lemma filter_all {A} (f : A -> bool) l :
  (forall x, In x l -> f x = true) -> filter f l = l.
Proof.
  induction l as [|x l IH]; intros H; [reflexivity|]. cbn [filter].
  rewrite (H x (or_introl eq_refl)). f_equal. apply IH.
  intros y Hy. apply H. now right.
Qed.

Lemma deleted_iff caller cid c :
  AssistantsAPI.deleted caller cid c = true
  <-> id c = cid /\ user_id c = caller.
Proof.
  unfold AssistantsAPI.deleted. rewrite andb_true_iff.
  now rewrite !String.eqb_eq.
Qed.

(** X18. A successful [deleteConversation] removes the conversations with
    the given id that the caller owns, and with them exactly the messages
    that refer to one of them; every other row stays as it is.  The store
    stays referentially intact, and afterwards [getMessages] returns no
    message for that id to the caller. *)
Theorem delete_takes_the_messages_along caller s cid :
  let s' := snd (AssistantsAPI.deleteConversation caller None s cid) in
  fst (AssistantsAPI.deleteConversation caller None s cid) = Return tt
  /\ (forall c, In c (conversations s')
                <-> In c (conversations s)
                    /\ ~ (id c = cid /\ user_id c = caller))
  /\ (forall m, In m (messages s')
                <-> In m (messages s)
                    /\ ~ (conversation_id m = cid
                          /\ exists c, In c (conversations s)
                                       /\ id c = cid /\ user_id c = caller))
  /\ (references_hold s -> references_hold s')
  /\ AssistantsAPI.getMessages caller None s' cid = Return [].
Proof.
  intros s'. subst s'. cbn [AssistantsAPI.deleteConversation fst snd].
  assert (Hc : forall c,
             In c (conversations (AssistantsAPI.delete_from caller s cid))
             <-> In c (conversations s)
                 /\ ~ (id c = cid /\ user_id c = caller)).
  { intros c. cbn [AssistantsAPI.delete_from conversations].
    rewrite filter_In, negb_true_iff, <- not_true_iff_false, deleted_iff.
    reflexivity. }
  assert (Hm : forall m,
             In m (messages (AssistantsAPI.delete_from caller s cid))
             <-> In m (messages s)
                 /\ ~ (conversation_id m = cid
                       /\ exists c, In c (conversations s)
                                    /\ id c = cid /\ user_id c = caller)).
  { intros m. cbn [AssistantsAPI.delete_from messages].
    rewrite filter_In, negb_true_iff, <- not_true_iff_false, existsb_exists.
    split; intros [Hin Hn]; (split; [exact Hin|]); intros H; apply Hn.
    - destruct H as [Hcid [c [Hcin [Hi Hu]]]]. exists c.
      split; [exact Hcin|]. apply andb_true_iff. split.
      + now apply deleted_iff.
      + apply String.eqb_eq. congruence.
    - destruct H as [c [Hcin Hd]]. apply andb_true_iff in Hd.
      destruct Hd as [Hd He]. apply deleted_iff in Hd.
      apply String.eqb_eq in He. destruct Hd as [Hi Hu].
      split; [congruence|]. now exists c. }
  split; [reflexivity|]. split; [exact Hc|]. split; [exact Hm|]. split.
  - intros Href m Hin. apply Hm in Hin. destruct Hin as [Hin Hn].
    destruct (Href m Hin) as [c [Hcin Hi]]. exists c.
    split; [|exact Hi]. apply Hc. split; [exact Hcin|].
    intros [Hcid Hu]. apply Hn. split; [congruence|]. now exists c.
  - destruct (getMessages_listing caller
                (AssistantsAPI.delete_from caller s cid) cid)
      as [data [Hg [Hp _]]].
    rewrite Hg. f_equal.
    destruct data as [|m data]; [reflexivity|]. exfalso.
    assert (Hin : In m (m :: data)) by now left.
    apply (Permutation_in _ Hp) in Hin. apply filter_In in Hin.
    destruct Hin as [_ Hf]. apply andb_true_iff in Hf.
    destruct Hf as [Hv He]. apply String.eqb_eq in He.
    unfold visible_message in Hv. apply existsb_exists in Hv.
    destruct Hv as [c [Hcin Hb]]. apply andb_true_iff in Hb.
    destruct Hb as [Hi Hu]. apply String.eqb_eq in Hi, Hu.
    apply Hc in Hcin. destruct Hcin as [_ Hn]. apply Hn.
    split; congruence.
Qed.

(** X19. [deleteConversation] for an id under which the caller owns no
    conversation succeeds and leaves the store exactly as it was: another
    user's conversation and its messages are never deleted.  When the
    store rejects the delete, the store is unchanged as well and an
    [Error] is thrown. *)
Theorem delete_spares_foreign_conversations caller delete_error s cid :
  (forall c, In c (conversations s) -> id c = cid -> user_id c <> caller) ->
  snd (AssistantsAPI.deleteConversation caller delete_error s cid) = s
  /\ fst (AssistantsAPI.deleteConversation caller delete_error s cid)
     = match delete_error with
       | Some m => Throw (JsError ("Failed to delete conversation: " ++ m))
       | None => Return tt
       end.
Proof.
  intros Hn. unfold AssistantsAPI.deleteConversation.
  destruct delete_error as [m|]; [now split|]. split; [|reflexivity].
  cbn [snd]. unfold AssistantsAPI.delete_from.
  assert (Hd : forall c, In c (conversations s) ->
                         AssistantsAPI.deleted caller cid c = false).
  { intros c Hin. apply not_true_iff_false. intros H.
    apply deleted_iff in H. destruct H as [Hi Hu]. now apply (Hn c Hin Hi). }
  rewrite !filter_all; [now destruct s | |].
  - intros m _. apply negb_true_iff, not_true_iff_false. intros H.
    apply existsb_exists in H. destruct H as [c [Hin Hb]].
    apply andb_true_iff in Hb. destruct Hb as [Hb _].
    now rewrite (Hd c Hin) in Hb.
  - intros c Hin. now rewrite (Hd c Hin).
Qed.

Lemma delete_spares_foreign_conversations_witness :
  snd (AssistantsAPI.deleteConversation "alice" None demo_store "c-bob")
  = demo_store.
Proof.
  apply (delete_spares_foreign_conversations "alice" None demo_store "c-bob").
  intros c [Hc|[]] _. subst c. discriminate.
Defined.

(** ** One turn after another *)

Lemma NoDup_snoc {A} (l : list A) x :
  NoDup l -> ~ In x l -> NoDup (l ++ [x]).
Proof.
  induction l as [|y l IH]; intros Hnd Hx; cbn [app].
  - constructor; [intros [] | constructor].
  - inversion Hnd; subst. constructor.
    + intros Hin. apply in_app_or in Hin. destruct Hin as [Hin|[Hin|[]]].
      * contradiction.
      * subst y. apply Hx. now left.
    + apply IH; [assumption|]. intros Hin. apply Hx. now right.
Qed.

Lemma map_id_key cs :
  map id cs = map (fun k => fst (fst (fst k))) (map conversation_key cs).
Proof. rewrite map_map. reflexivity. Qed.

(** X20. A conversation that a request without conversation id has
    created is continued by a later request of the same caller that names
    its id, on either endpoint and even if the first turn failed after the
    creation: the later request creates no conversation, its requests to
    the remote service are about the thread created by the first, and a
    successful answer carries the same conversation id and thread.  The
    ids of the store are taken to be unique and the id given to the new
    row to be fresh. *)
Theorem conversation_is_continued E1 E2 cfg1 cfg2 req1 req2 st
    h1 h2 uid b1 b2 msg1 msg2 thread :
  accepted E1 req1 h1 uid b1 msg1 ->
  truthy_opt (conversationId b1) = false ->
  post_threads E1 = Ok thread ->
  insert_conversation_error E1 = None ->
  NoDup (map id (conversations (store st))) ->
  ~ In (gen_id E1 (store st)) (map id (conversations (store st))) ->
  accepted E2 req2 h2 uid b2 msg2 ->
  conversationId b2 = Some (gen_id E1 (store st)) ->
  truthy (gen_id E1 (store st)) = true ->
  select_conversation_error E2 = None ->
  let st1 := snd (serve E1 cfg1 req1 st) in
  let st2 := snd (serve E2 cfg2 req2 st1) in
  map conversation_key (conversations (store st2))
  = (map conversation_key (conversations (store st))
       ++ [(gen_id E1 (store st), uid, cfg_assistant_type cfg1, thread)])%list
  /\ (exists evs,
        trace st2 = (trace st1 ++ evs)%list
        /\ Forall (fun ev => forall th, event_thread ev = Some th ->
                                        th = thread) evs)
  /\ (forall d, body (fst (serve E2 cfg2 req2 st1)) = BodyChat d ->
                resp_threadId d = thread
                /\ resp_conversationId d = gen_id E1 (store st)).
Proof.
  intros Ha1 Hc1 Hp Hi Hnd Hfresh Ha2 Hc2 Htc Hse st1 st2.
  (* the first turn *)
  assert (Hk1 : map conversation_key (conversations (store st1))
                = (map conversation_key (conversations (store st))
                     ++ [(gen_id E1 (store st), uid,
                          cfg_assistant_type cfg1, thread)])%list).
  { subst st1.
    rewrite (serve_accepted _ _ _ _ _ _ _ _ Ha1), respond_snd.
    assert (Hres : resolve_conversation E1 cfg1 uid (conversationId b1)
                   = create_conversation E1 cfg1 uid)
      by (unfold resolve_conversation; now rewrite Hc1).
    rewrite Hres.
    destruct (new_conversation_effects E1 cfg1 uid msg1 (userContext b1)
                (log (EvGetUser h1) st)) as [_ Hn].
    now destruct (Hn thread Hp Hi) as [Hk _]. }
  assert (Hrow : exists c, In c (conversations (store st1))
                           /\ conversation_key c
                              = (gen_id E1 (store st), uid,
                                 cfg_assistant_type cfg1, thread)).
  { assert (H : In (gen_id E1 (store st), uid, cfg_assistant_type cfg1, thread)
                   (map conversation_key (conversations (store st1)))).
    { rewrite Hk1. apply in_or_app. right. now left. }
    apply in_map_iff in H. destruct H as [c [Hc Hin]]. now exists c. }
  destruct Hrow as [c [Hcin Hkey]].
  unfold conversation_key in Hkey. injection Hkey as Hid Hown Hty Hth.
  assert (Hnd1 : NoDup (map id (conversations (store st1)))).
  { rewrite map_id_key, Hk1, map_app, <- map_id_key. cbn [map fst].
    now apply NoDup_snoc. }
  (* the second turn *)
  destruct (reuse_effects E2 cfg2 req2 st1 h2 uid b2 msg2
              (gen_id E1 (store st)) c Ha2 Hc2 Htc Hse Hnd1 Hcin Hid Hown)
    as [Hk2 [[evs [Ht Fe]] Hd]].
  fold st2 in Hk2, Ht, Hd. repeat split.
  - now rewrite Hk2, Hk1.
  - eexists. split; [exact Ht|].
    repeat (constructor; [intros th He; discriminate|]).
    eapply Forall_impl; [|exact Fe]. intros ev Hab th He.
    rewrite <- Hth.
    now apply (about_thread cfg2
                 {| turn_user := uid; turn_message := msg2;
                    turn_userContext := userContext b2;
                    threadId := thread_id c;
                    dbConversationId := gen_id E1 (store st) |} ev th).
  - rewrite <- Hth. now apply (Hd d).
  - now apply (Hd d).
Qed.

Lemma conversation_is_continued_witness :
  let E1 := demo_env "queued" (fun _ => NotOk) (Ok tt) in
  let E2 := demo_env "completed" (fun _ => NotOk) (Ok tt) in
  let st1 := snd (serve E1 excursion_creator_config (demo_request None)
                    demo_state) in
  let r := serve E2 health_coach_config (demo_request (Some "iii")) st1 in
  map conversation_key (conversations (store (snd r)))
  = [ ("c-bob", "bob", health_coach, "thread_bob");
      ("iii", "alice", excursion_creator, "thread_1") ]
  /\ forall d, body (fst r) = BodyChat d ->
               resp_threadId d = "thread_1" /\ resp_conversationId d = "iii".
Proof.
  intros E1 E2 st1 r. subst r st1.
  assert (Hnd : NoDup (map id (conversations (store demo_state)))).
  { repeat constructor. intros []. }
  assert (Hfresh : ~ In (gen_id E1 (store demo_state))
                        (map id (conversations (store demo_state)))).
  { intros [H|[]]. discriminate. }
  destruct (conversation_is_continued E1 E2 excursion_creator_config
              health_coach_config (demo_request None)
              (demo_request (Some "iii")) demo_state
              "Bearer alice" "Bearer alice" "alice" _ _
              "Plan a beach day" "Plan a beach day" "thread_1"
              (demo_accepted _ _ _ _) eq_refl eq_refl eq_refl Hnd Hfresh
              (demo_accepted _ _ _ _) eq_refl eq_refl eq_refl)
    as [Hk [_ Hd]].
  split; [exact Hk | exact Hd].
Defined.
